(** * Ultrasound core: frame decoder and filter pipeline

    A shallow embedding of [ultrasound_core.cpp] / [ultrasound_core.h]
    (namespace [ultrasound]): the [UltraHeader] record, the frame decoder
    [UltrasoundSDK::loadFrameFromBytes] with its helpers, the checksum
    check [validateCrc], the filter pipeline [applyFilters] and the AI
    hook [runAiInference].

    Conventions.
    - Fixed-width unsigned integers are [Z] values; the range of each
      field is the range of its C++ type.  [size_t] is 64 bits wide
      (LP64); its wrap-around is written out in [wrap_size_t].
    - A byte buffer ([std::vector<uint8_t>], [const uint8_t*]) is a
      [list byte]; [memcpy] into an integer reads little-endian, the byte
      order of the targets the library is built for.
    - A C++ call either returns, throws, or has undefined behaviour:
      see [outcome].
    - OpenCV and zlib are libraries outside the repository.  The few of
      their functions whose result a property depends on are modelled
      from the specification; the others are parameters ([OpenCV]). *)

From Stdlib Require Import ZArith List Bool Lia.
From Stdlib.Strings Require Import String Ascii Byte.
From Stdlib Require Import Floats.SpecFloat.
Import ListNotations.
Local Open Scope Z_scope.

Set Implicit Arguments.

(* ================================================================== *)
(** * Part I: the embedding                                            *)
(* ================================================================== *)

(** ** Outcomes of a C++ call *)

(** [std::runtime_error(msg)] is what the SDK throws itself;
    [cv_Exception] is what an OpenCV assertion throws. *)
Inductive exn : Type :=
| runtime_error (what : string)
| cv_Exception (what : string).

(** The two ways a [memcpy] leaves its buffers. *)
Inductive ub_kind : Type :=
| ReadOutOfBounds
| WriteOutOfBounds.

Inductive outcome (A : Type) : Type :=
| Ok (a : A)
| Throw (e : exn)
| UB (u : ub_kind).

Arguments Ok {A} a.
Arguments Throw {A} e.
Arguments UB {A} u.

Definition obind {A B} (c : outcome A) (k : A -> outcome B) : outcome B :=
  match c with
  | Ok a => k a
  | Throw e => Throw e
  | UB u => UB u
  end.

Notation "x <- c ;; k" := (obind c (fun x => k))
  (at level 61, c at next level, right associativity).

Definition is_Ok {A} (c : outcome A) : bool :=
  match c with Ok _ => true | _ => false end.

(** The error taxonomy of the specification, as the exceptions of the
    source that stand for them. *)
Definition FormatError : exn :=
  runtime_error "Data too small to contain header".
Definition InvalidHeaderError : exn :=
  runtime_error "Invalid header: magic ID mismatch".
Definition SizeMismatchError : exn :=
  runtime_error "Data size mismatch".
Definition EmptyFrameError : exn :=
  runtime_error "Empty frame".
Definition NotImplementedError : exn :=
  runtime_error
    "AI inference not yet implemented. This is a placeholder for future TensorFlow Lite integration.".

(** ** Bytes and little-endian integers *)

Definition byte_val (b : byte) : Z := Z.of_N (Byte.to_N b).

Definition byte_of_Z (z : Z) : byte :=
  match Byte.of_N (Z.to_N (z mod 256)) with
  | Some b => b
  | None => x00
  end.

(** The value [memcpy] leaves in an unsigned integer of [length bs]
    bytes. *)
Fixpoint le_uint (bs : list byte) : Z :=
  match bs with
  | [] => 0
  | b :: bs' => byte_val b + 256 * le_uint bs'
  end.

(** The [n] low bytes of [v], least significant first. *)
Fixpoint le_bytes (n : nat) (v : Z) : list byte :=
  match n with
  | O => []
  | S n' => byte_of_Z v :: le_bytes n' (v / 256)
  end.

Definition zlength {A} (l : list A) : Z := Z.of_nat (List.length l).

(** [size] bytes of the buffer starting at [off], as [memcpy(&field, ptr,
    sizeof field)] reads them. *)
Definition read_le (bytes : list byte) (off : nat) (size : nat) : Z :=
  le_uint (firstn size (skipn off bytes)).

(** ** [size_t] *)

Definition size_t_bits : Z := 64.
Definition wrap_size_t (z : Z) : Z := z mod 2 ^ size_t_bits.

(** ** [struct UltraHeader] *)

Record UltraHeader : Type := mkUltraHeader {
  magicId : Z;        (* uint32_t *)
  width : Z;          (* uint16_t *)
  height : Z;         (* uint16_t *)
  depth : Z;          (* uint16_t *)
  bytesPerVoxel : Z;  (* uint16_t *)
  frameNumber : Z;    (* uint32_t *)
  timestamp : Z;      (* uint64_t *)
  reserved : Z;       (* uint32_t *)
  crc : Z             (* uint32_t *)
}.

Definition MAGIC_ID : Z := 0x554C5452.
Definition HEADER_SIZE : Z := 32.

(** Every field holds a value of its C++ type. *)
Definition header_in_range (h : UltraHeader) : Prop :=
  0 <= magicId h < 2 ^ 32 /\
  0 <= width h < 2 ^ 16 /\
  0 <= height h < 2 ^ 16 /\
  0 <= depth h < 2 ^ 16 /\
  0 <= bytesPerVoxel h < 2 ^ 16 /\
  0 <= frameNumber h < 2 ^ 32 /\
  0 <= timestamp h < 2 ^ 64 /\
  0 <= reserved h < 2 ^ 32 /\
  0 <= crc h < 2 ^ 32.

(** [UltraHeader::isValid] *)
Definition isValid (h : UltraHeader) : bool :=
  (magicId h =? MAGIC_ID) &&
  (0 <? width h) && (0 <? height h) &&
  (0 <? bytesPerVoxel h).

(** [UltraHeader::getFrameDataSize]: three [size_t] multiplications. *)
Definition getFrameDataSize (h : UltraHeader) : Z :=
  wrap_size_t (wrap_size_t (wrap_size_t (width h * height h) * depth h)
               * bytesPerVoxel h).

(** ** [cv::Mat] *)

(** A single-channel matrix of [rows] by [cols] cells, row after row. *)
Record Mat (A : Type) : Type := mkMat {
  rows : Z;
  cols : Z;
  data : list A
}.

Arguments mkMat {A} rows cols data.

(** A cell of a freshly allocated pixel buffer holds no determinate
    value until it is written. *)
Definition cell : Type := option byte.

(** [cv::Mat frame(rows, cols, CV_8UC1)]: [rows * cols] one-byte cells,
    not initialised. *)
Definition Mat_create (nrows ncols : Z) : Mat cell :=
  mkMat nrows ncols (repeat None (Z.to_nat (nrows * ncols))).

(** [memcpy(dst, src + src_off, n)]: undefined as soon as one of the [n]
    bytes lies outside the source or the destination. *)
Definition memcpy (dst : list cell) (src : list byte) (src_off n : Z)
  : outcome (list cell) :=
  if zlength src <? src_off + n then UB ReadOutOfBounds
  else if zlength dst <? n then UB WriteOutOfBounds
  else Ok (map Some (firstn (Z.to_nat n) (skipn (Z.to_nat src_off) src))
           ++ skipn (Z.to_nat n) dst).

(** The source and destination indices of the [k]-th byte that
    [extractFrameData] copies. *)
Definition read_index (k : Z) : Z := HEADER_SIZE + k.
Definition write_index (k : Z) : Z := k.

(** ** [struct UltraFrame] *)

Record UltraFrame : Type := mkUltraFrame {
  header : UltraHeader;
  frame : Mat cell
}.

(** ** The decoder *)

(** [UltrasoundSDK::parseHeader].  The pointer is [bytes.data()] of a
    vector of at least [HEADER_SIZE] bytes, so it is not null. *)
Definition parseHeader (bytes : list byte) : UltraHeader :=
  {| magicId := read_le bytes 0 4;
     width := read_le bytes 4 2;
     height := read_le bytes 6 2;
     depth := read_le bytes 8 2;
     bytesPerVoxel := read_le bytes 10 2;
     frameNumber := read_le bytes 12 4;
     timestamp := read_le bytes 16 8;
     reserved := read_le bytes 24 4;
     crc := read_le bytes 28 4 |}.

(** [UltrasoundSDK::extractFrameData] *)
Definition extractFrameData (bytes : list byte) (h : UltraHeader)
  : outcome (Mat cell) :=
  let frameSize := getFrameDataSize h in
  let frame := Mat_create (height h) (width h) in
  d <- memcpy (data frame) bytes HEADER_SIZE frameSize ;;
  Ok (mkMat (rows frame) (cols frame) d).

(** *** CRC-32 *)

(** Modelled from the spec: zlib's [crc32] is not under src/.  The
    specification names "the standard CRC-32 polynomial": the reflected
    polynomial 0xEDB88320, register preset to all ones and inverted on
    output, one byte at a time, least significant bit first. *)
Definition crc32_poly : Z := 0xEDB88320.

Definition crc32_bit (c : Z) : Z :=
  if Z.testbit c 0 then Z.lxor (Z.shiftr c 1) crc32_poly
  else Z.shiftr c 1.

Definition crc32_byte (c : Z) (b : byte) : Z :=
  Nat.iter 8 crc32_bit (Z.lxor c (byte_val b)).

Definition crc32 (crc0 : Z) (buf : list byte) : Z :=
  Z.lxor (fold_left crc32_byte buf (Z.lxor crc0 0xFFFFFFFF)) 0xFFFFFFFF.

(** [uInt], the type of the length that zlib's [crc32] takes: 32
    bits. *)
Definition wrap_uInt (z : Z) : Z := z mod 2 ^ 32.

(** [UltrasoundSDK::calculateCrc32]: the [size_t] length is converted
    to the [uInt] parameter of [crc32], and the [uLong] that [crc32]
    returns to [uint32_t]. *)
Definition calculateCrc32 (bytes : list byte) (length : Z) : Z :=
  crc32 0 (firstn (Z.to_nat (wrap_uInt length)) bytes) mod 2 ^ 32.

(** [UltrasoundSDK::validateCrc] *)
Definition validateCrc (bytes : list byte) (expectedCrc : Z) : bool :=
  if zlength bytes <? HEADER_SIZE then false
  else
    let calculatedCrc :=
      calculateCrc32 (skipn 28 bytes) (zlength bytes - 28) in
    calculatedCrc =? expectedCrc.

(** [UltrasoundSDK::loadFrameFromBytes] *)
Definition loadFrameFromBytes (bytes : list byte) : outcome UltraFrame :=
  if zlength bytes <? HEADER_SIZE then
    Throw (runtime_error "Data too small to contain header")
  else
    let hdr := parseHeader bytes in
    if negb (isValid hdr) then
      Throw (runtime_error "Invalid header: magic ID mismatch")
    else
      let expectedSize := wrap_size_t (HEADER_SIZE + getFrameDataSize hdr) in
      if zlength bytes <? expectedSize then
        Throw (runtime_error "Data size mismatch")
      else
        (* the comparison is made and its result dropped *)
        let _ := if negb (validateCrc bytes (crc hdr)) then tt else tt in
        f <- extractFrameData bytes hdr ;;
        Ok (mkUltraFrame hdr f).

(** *** The encoder *)

(** Modelled from the spec: the writer of the frame format is not under
    src/.  Section 6 gives the layout: nine little-endian fields at
    offsets 0, 4, 6, 8, 10, 12, 16, 24 and 28, then the pixel payload at
    offset 32. *)
Definition encodeHeader (h : UltraHeader) : list byte :=
  le_bytes 4 (magicId h) ++
  le_bytes 2 (width h) ++
  le_bytes 2 (height h) ++
  le_bytes 2 (depth h) ++
  le_bytes 2 (bytesPerVoxel h) ++
  le_bytes 4 (frameNumber h) ++
  le_bytes 8 (timestamp h) ++
  le_bytes 4 (reserved h) ++
  le_bytes 4 (crc h).

Definition encode (h : UltraHeader) (payload : list byte) : list byte :=
  encodeHeader h ++ payload.

(** *** Sample frames *)

(** Scenario A of the specification, on a 2 by 2 frame. *)
Definition header_2x2 : UltraHeader :=
  {| magicId := MAGIC_ID; width := 2; height := 2; depth := 1;
     bytesPerVoxel := 1; frameNumber := 7; timestamp := 1000;
     reserved := 0; crc := 0 |}.

Definition payload_2x2 : list byte := [x80; x80; x80; x80].

(** The same frame with a checksum field that [validateCrc] accepts:
    the CRC-32 of the four bytes of the field followed by the payload is
    the field itself. *)
Definition header_2x2_crc : UltraHeader :=
  {| magicId := MAGIC_ID; width := 2; height := 2; depth := 1;
     bytesPerVoxel := 1; frameNumber := 7; timestamp := 1000;
     reserved := 0; crc := 0x352FD1ED |}.

(** Scenario A itself: 128 by 128 samples, all equal to 128. *)
Definition header_A : UltraHeader :=
  {| magicId := MAGIC_ID; width := 128; height := 128; depth := 1;
     bytesPerVoxel := 1; frameNumber := 7; timestamp := 1000;
     reserved := 0; crc := 0 |}.

Definition payload_A : list byte := repeat x80 (Z.to_nat 16384).

(** A valid header that announces two planes of one pixel. *)
Definition header_two_planes : UltraHeader :=
  {| magicId := MAGIC_ID; width := 1; height := 1; depth := 2;
     bytesPerVoxel := 1; frameNumber := 7; timestamp := 1000;
     reserved := 0; crc := 0 |}.

Definition payload_two_planes : list byte := [x01; x02].

(** A valid header that announces two pixels of two bytes each. *)
Definition header_wide_samples : UltraHeader :=
  {| magicId := MAGIC_ID; width := 2; height := 1; depth := 1;
     bytesPerVoxel := 2; frameNumber := 1; timestamp := 0;
     reserved := 0; crc := 0 |}.

Definition payload_wide_samples : list byte := [x10; x20; x30; x40].

(** A valid header that announces no plane at all. *)
Definition header_no_plane : UltraHeader :=
  {| magicId := MAGIC_ID; width := 1; height := 1; depth := 0;
     bytesPerVoxel := 1; frameNumber := 0; timestamp := 0;
     reserved := 0; crc := 0 |}.

(** ** Floating-point values *)

(** A [float] or [double] is an IEEE 754 value as [spec_float] gives it:
    [float] in the binary32 format, [double] in binary64.  The
    conversion of a [float] argument to a [double] parameter keeps the
    value, so it is not written. *)
Definition f32_one : spec_float := SFone 24 128.
Definition f64_one : spec_float := SFone 53 1024.
Definition f32_of_int (z : Z) : spec_float := binary_normalize 24 128 z 0 false.
Definition f64_of_int (z : Z) : spec_float := binary_normalize 53 1024 z 0 false.
Definition f64_add (x y : spec_float) : spec_float := SFadd 53 1024 x y.

(** The C++ operator [!=] on floating-point values: true also when an
    operand is not a number. *)
Definition float_ne (x y : spec_float) : bool := negb (SFeqb x y).

(** ** [struct ProcessingParams] *)

Record ProcessingParams : Type := mkProcessingParams {
  normalize : bool;
  denoise : bool;
  gain : spec_float;             (* float *)
  gaussianBlur : bool;
  blurKernelSize : Z;            (* int *)
  sharpen : bool;
  sharpenAmount : spec_float;    (* float *)
  contrastAlpha : spec_float;    (* float *)
  contrastBeta : Z;              (* int *)
  enableAiPreprocessing : bool
}.

(** [ProcessingParams() = default] *)
Definition default_params : ProcessingParams :=
  {| normalize := true;
     denoise := true;
     gain := f32_one;
     gaussianBlur := false;
     blurKernelSize := 3;
     sharpen := false;
     sharpenAmount := f32_one;
     contrastAlpha := f32_one;
     contrastBeta := 0;
     enableAiPreprocessing := false |}.

(** ** Intensity matrices *)

(** The pipeline works on 8-bit single-channel matrices ("Input frame
    (8-bit grayscale)"); a sample is its integer value. *)
Definition image : Type := Mat Z.

(** [cv::Mat::empty] *)
Definition empty (m : image) : bool :=
  (zlength (data m) =? 0) || (rows m * cols m =? 0).

(** [cv::Mat::clone] *)
Definition clone (m : image) : image := mkMat (rows m) (cols m) (data m).

Definition same_shape (a b : image) : Prop :=
  rows b = rows a /\ cols b = cols a /\ zlength (data b) = zlength (data a).

(** [cv::saturate_cast<uchar>] of an integer. *)
Definition saturate_u8 (v : Z) : Z := Z.max 0 (Z.min 255 v).

(** The integer nearest to [n / d] for [0 < d], halves to the even
    neighbour ([cvRound]). *)
Definition round_div (n d : Z) : Z :=
  let q := n / d in
  let r := n mod d in
  if 2 * r <? d then q
  else if d <? 2 * r then q + 1
  else if Z.even q then q else q + 1.

Definition list_min (l : list Z) : Z :=
  match l with
  | [] => 0
  | x :: l' => fold_left Z.min l' x
  end.

Definition list_max (l : list Z) : Z :=
  match l with
  | [] => 0
  | x :: l' => fold_left Z.max l' x
  end.

(** Modelled from the spec: [cv::normalize(src, dst, a, b,
    cv::NORM_MINMAX)] is OpenCV code, not under src/.  The specification
    has it as the "linear min-max rescale of sample values into [0,255]":
    the least sample goes to the lower bound, the greatest to the upper
    bound, the others linearly in between, each result quantized to an
    8-bit sample.  A matrix whose samples are all equal goes to the lower
    bound (OpenCV takes the scale to be 0 there).  The arithmetic is
    exact, rounding is to nearest. *)
Definition cv_normalize_minmax (src : image) (a b : Z) : image :=
  let dmin := Z.min a b in
  let dmax := Z.max a b in
  let smin := list_min (data src) in
  let smax := list_max (data src) in
  let rescale (x : Z) : Z :=
    if 0 <? smax - smin
    then saturate_u8 (round_div ((x - smin) * (dmax - dmin)) (smax - smin) + dmin)
    else saturate_u8 dmin in
  mkMat (rows src) (cols src) (map rescale (data src)).

(** Modelled from the spec: [src.convertTo(dst, CV_8UC1)] is OpenCV
    code, not under src/.  The specification has it as "quantize to
    8-bit samples": each sample is cast, with saturation, to an unsigned
    byte; scale 1 and offset 0 are the defaults of the call. *)
Definition convertTo_8U (src : image) : image :=
  mkMat (rows src) (cols src) (map saturate_u8 (data src)).

Definition CV_8UC1 : Z := 0.

(** ** The OpenCV functions taken as parameters *)

(** What the pipeline calls and the model does not look into: each
    takes the source matrix and the arguments of the call and returns
    the destination matrix or throws. *)
Record OpenCV : Type := mkOpenCV {
  (* cv::fastNlMeansDenoising(src, dst, h, templateWindowSize,
     searchWindowSize) *)
  fastNlMeansDenoising : image -> spec_float -> Z -> Z -> outcome image;
  (* cv::GaussianBlur(src, dst, cv::Size(kw, kh), sigmaX) *)
  GaussianBlur : image -> Z * Z -> spec_float -> outcome image;
  (* cv::addWeighted(src1, alpha, src2, beta, gamma, dst) *)
  addWeighted :
    image -> spec_float -> image -> spec_float -> spec_float -> outcome image;
  (* src.convertTo(dst, -1, alpha, beta) *)
  convertTo : image -> spec_float -> spec_float -> outcome image
}.

(** What the pipeline relies on: on the arguments it passes, a call
    returns a matrix of the shape of its source.  [GaussianBlur] is
    only required to accept an odd positive kernel extent, or the
    extent [(0, 0)] together with the deviation 3. *)
Record OpenCV_contract (cv : OpenCV) : Prop := mkOpenCV_contract {
  fastNlMeansDenoising_shape :
    forall src, exists dst,
      fastNlMeansDenoising cv src (f32_of_int 10) 7 21 = Ok dst /\
      same_shape src dst;
  GaussianBlur_ksize_shape :
    forall src k, 0 < k -> Z.odd k = true -> exists dst,
      GaussianBlur cv src (k, k) (f64_of_int 0) = Ok dst /\
      same_shape src dst;
  GaussianBlur_sigma_shape :
    forall src, exists dst,
      GaussianBlur cv src (0, 0) (f64_of_int 3) = Ok dst /\
      same_shape src dst;
  addWeighted_shape :
    forall src1 alpha src2 beta gamma, same_shape src1 src2 -> exists dst,
      addWeighted cv src1 alpha src2 beta gamma = Ok dst /\
      same_shape src1 dst;
  convertTo_shape :
    forall src alpha beta, exists dst,
      convertTo cv src alpha beta = Ok dst /\ same_shape src dst
}.

(** ** Calls into OpenCV, in the order they are made *)

Inductive cv_call : Type :=
| call_normalize (a b : Z)
| call_convertTo (rtype : Z) (alpha beta : spec_float)
| call_fastNlMeansDenoising (h : spec_float) (templateWindowSize searchWindowSize : Z)
| call_GaussianBlur (ksize : Z * Z) (sigmaX : spec_float)
| call_addWeighted (alpha beta gamma : spec_float).

(** A computation of the pipeline: the calls it made and how it ended. *)
Definition cvM (A : Type) : Type := (list cv_call * outcome A)%type.

Definition cv_ret {A} (a : A) : cvM A := ([], Ok a).

Definition cv_throw {A} (e : exn) : cvM A := ([], Throw e).

Definition cv_bind {A B} (c : cvM A) (k : A -> cvM B) : cvM B :=
  match snd c with
  | Ok a => (fst c ++ fst (k a), snd (k a))
  | Throw e => (fst c, Throw e)
  | UB u => (fst c, UB u)
  end.

Definition cv_do {A} (c : cv_call) (r : outcome A) : cvM A := ([c], r).

Notation "x <~ c ;; k" := (cv_bind c (fun x => k))
  (at level 61, c at next level, right associativity).

(** ** The filter pipeline *)

Section Pipeline.

Variable cv : OpenCV.

(** [UltrasoundSDK::normalizeIntensity] *)
Definition normalizeIntensity (frame : image) : cvM image :=
  cv_do (call_normalize 0 255) (Ok (cv_normalize_minmax frame 0 255)).

(** [UltrasoundSDK::applyDenoise] *)
Definition applyDenoise (frame : image) : cvM image :=
  cv_do (call_fastNlMeansDenoising (f32_of_int 10) 7 21)
        (fastNlMeansDenoising cv frame (f32_of_int 10) 7 21).

(** [UltrasoundSDK::applyGain] *)
Definition applyGain (frame : image) (gain : spec_float) : cvM image :=
  cv_do (call_convertTo (-1) gain (f64_of_int 0))
        (convertTo cv frame gain (f64_of_int 0)).

(** [UltrasoundSDK::applySharpen] *)
Definition applySharpen (frame : image) (amount : spec_float) : cvM image :=
  blurred <~ cv_do (call_GaussianBlur (0, 0) (f64_of_int 3))
                   (GaussianBlur cv frame (0, 0) (f64_of_int 3)) ;;
  sharpened <~ cv_do (call_addWeighted (f64_add f64_one amount) (SFopp amount)
                                       (f64_of_int 0))
                     (addWeighted cv frame (f64_add f64_one amount)
                                  blurred (SFopp amount) (f64_of_int 0)) ;;
  cv_ret sharpened.

(** [UltrasoundSDK::applyFilters] *)
Definition applyFilters (frame : image) (params : ProcessingParams)
  : cvM image :=
  if empty frame then cv_throw (runtime_error "Empty frame")
  else
    let processed := clone frame in
    processed <~ (if normalize params
                  then normalizeIntensity processed
                  else cv_ret processed) ;;
    processed <~ (if float_ne (gain params) f32_one
                  then applyGain processed (gain params)
                  else cv_ret processed) ;;
    processed <~ (if denoise params
                  then applyDenoise processed
                  else cv_ret processed) ;;
    processed <~ (if gaussianBlur params && (0 <? blurKernelSize params)
                  then cv_do (call_GaussianBlur
                                (blurKernelSize params, blurKernelSize params)
                                (f64_of_int 0))
                             (GaussianBlur cv processed
                                (blurKernelSize params, blurKernelSize params)
                                (f64_of_int 0))
                  else cv_ret processed) ;;
    processed <~ (if sharpen params
                  then applySharpen processed (sharpenAmount params)
                  else cv_ret processed) ;;
    processed <~ (if float_ne (contrastAlpha params) f32_one
                     || negb (contrastBeta params =? 0)
                  then cv_do (call_convertTo (-1) (contrastAlpha params)
                                (f64_of_int (contrastBeta params)))
                             (convertTo cv processed (contrastAlpha params)
                                (f64_of_int (contrastBeta params)))
                  else cv_ret processed) ;;
    clamped <~ cv_do (call_normalize 0 255)
                     (Ok (cv_normalize_minmax processed 0 255)) ;;
    processed <~ cv_do (call_convertTo CV_8UC1 f64_one (f64_of_int 0))
                       (Ok (convertTo_8U clamped)) ;;
    cv_ret processed.

(** [UltrasoundSDK::runAiInference] *)
Definition runAiInference (frame : image) (modelPath : string)
  : outcome image :=
  Throw (runtime_error
    "AI inference not yet implemented. This is a placeholder for future TensorFlow Lite integration.").

End Pipeline.

(** ** The pipeline as a list of stages *)

(** The seven stages of the specification, in its order. *)
Inductive stage : Type :=
| Normalize
| Gain
| Denoise
| Blur
| Sharpen
| Contrast
| FinalRescale.

Definition stage_order : list stage :=
  [Normalize; Gain; Denoise; Blur; Sharpen; Contrast; FinalRescale].

(** The condition under which [applyFilters] enters a stage. *)
Definition gate (p : ProcessingParams) (s : stage) : bool :=
  match s with
  | Normalize => normalize p
  | Gain => float_ne (gain p) f32_one
  | Denoise => denoise p
  | Blur => gaussianBlur p && (0 <? blurKernelSize p)
  | Sharpen => sharpen p
  | Contrast => float_ne (contrastAlpha p) f32_one || negb (contrastBeta p =? 0)
  | FinalRescale => true
  end.

(** The gates in the words of the specification: the blur runs "if
    [gaussianBlur] is set and kernel size valid", valid being "odd and
    > 0". *)
Definition claimed_gate (p : ProcessingParams) (s : stage) : bool :=
  match s with
  | Blur => gaussianBlur p && (0 <? blurKernelSize p) && Z.odd (blurKernelSize p)
  | _ => gate p s
  end.

(** The OpenCV calls a stage makes, in order. *)
Definition stage_calls (p : ProcessingParams) (s : stage) : list cv_call :=
  match s with
  | Normalize => [call_normalize 0 255]
  | Gain => [call_convertTo (-1) (gain p) (f64_of_int 0)]
  | Denoise => [call_fastNlMeansDenoising (f32_of_int 10) 7 21]
  | Blur => [call_GaussianBlur (blurKernelSize p, blurKernelSize p) (f64_of_int 0)]
  | Sharpen =>
      [call_GaussianBlur (0, 0) (f64_of_int 3);
       call_addWeighted (f64_add f64_one (sharpenAmount p))
                        (SFopp (sharpenAmount p)) (f64_of_int 0)]
  | Contrast =>
      [call_convertTo (-1) (contrastAlpha p) (f64_of_int (contrastBeta p))]
  | FinalRescale =>
      [call_normalize 0 255; call_convertTo CV_8UC1 f64_one (f64_of_int 0)]
  end.

(** The body of a stage, as [applyFilters] has it. *)
Definition run_stage (cv : OpenCV) (p : ProcessingParams) (s : stage)
    (processed : image) : cvM image :=
  match s with
  | Normalize => normalizeIntensity processed
  | Gain => applyGain cv processed (gain p)
  | Denoise => applyDenoise cv processed
  | Blur =>
      cv_do (call_GaussianBlur (blurKernelSize p, blurKernelSize p) (f64_of_int 0))
            (GaussianBlur cv processed (blurKernelSize p, blurKernelSize p)
               (f64_of_int 0))
  | Sharpen => applySharpen cv processed (sharpenAmount p)
  | Contrast =>
      cv_do (call_convertTo (-1) (contrastAlpha p) (f64_of_int (contrastBeta p)))
            (convertTo cv processed (contrastAlpha p)
               (f64_of_int (contrastBeta p)))
  | FinalRescale =>
      clamped <~ cv_do (call_normalize 0 255)
                       (Ok (cv_normalize_minmax processed 0 255)) ;;
      cv_do (call_convertTo CV_8UC1 f64_one (f64_of_int 0))
            (Ok (convertTo_8U clamped))
  end.

(** The stages of a list, each behind the gate [g]. *)
Fixpoint run_stages (cv : OpenCV) (g : stage -> bool) (p : ProcessingParams)
    (stages : list stage) (processed : image) : cvM image :=
  match stages with
  | [] => cv_ret processed
  | s :: rest =>
      processed' <~ (if g s then run_stage cv p s processed
                     else cv_ret processed) ;;
      run_stages cv g p rest processed'
  end.

(** The stages that a blur with an odd kernel lets through: nothing is
    asked when the blur is not entered. *)
Definition blur_kernel_odd (p : ProcessingParams) : Prop :=
  gate p Blur = true -> Z.odd (blurKernelSize p) = true.

(** All stages but the first and the last disabled. *)
Definition only_normalize (p : ProcessingParams) : Prop :=
  normalize p = true /\
  float_ne (gain p) f32_one = false /\
  denoise p = false /\
  gaussianBlur p = false /\
  sharpen p = false /\
  float_ne (contrastAlpha p) f32_one = false /\
  contrastBeta p = 0.

(** ** A stand-in for OpenCV *)

(** Modelled from the spec: [cv::GaussianBlur] is OpenCV code, not
    under src/.  The specification has the kernel extent as one that
    "must be odd and > 0"; OpenCV asserts as much and throws otherwise.
    Before the assertion, an extent along a dimension of size 1 counts
    as 1, the extent [(1, 1)] is a plain copy, and an extent that is
    not positive is derived from the deviation when that is positive
    (the call of [applySharpen]). *)
Definition ksize_accepted (src : image) (ksize : Z * Z) (sigma : spec_float)
  : bool :=
  let kw := if cols src =? 1 then 1 else fst ksize in
  let kh := if rows src =? 1 then 1 else snd ksize in
  let ok (k : Z) :=
    if k <=? 0 then SFltb (S754_zero false) sigma else Z.odd k in
  ((kw =? 1) && (kh =? 1)) || (ok kw && ok kh).

Definition same_shapeb (a b : image) : bool :=
  (rows b =? rows a) && (cols b =? cols a)
  && (zlength (data b) =? zlength (data a)).

(** An implementation of the parameters for closed examples: it checks
    the arguments of a call as OpenCV does and hands back the samples of
    the source as they are. *)
Definition cv_stub : OpenCV :=
  {| fastNlMeansDenoising := fun src _ _ _ => Ok (clone src);
     GaussianBlur := fun src ksize sigma =>
       if ksize_accepted src ksize sigma then Ok (clone src)
       else Throw (cv_Exception
         "ksize.width > 0 && ksize.width % 2 == 1 && ksize.height > 0 && ksize.height % 2 == 1");
     addWeighted := fun src1 _ src2 _ _ =>
       if same_shapeb src1 src2 then Ok (clone src1)
       else Throw (cv_Exception "The operation is neither 'array op array' nor 'array op scalar'");
     convertTo := fun src _ _ => Ok (clone src) |}.

(** *** Sample images and parameters *)

Definition image_2x2 : image := mkMat 2 2 [0; 85; 170; 255].

Definition uniform_2x2 : image := mkMat 2 2 [128; 128; 128; 128].

(** Every stage off but the final rescale. *)
Definition params_all_off : ProcessingParams :=
  {| normalize := false; denoise := false; gain := f32_one;
     gaussianBlur := false; blurKernelSize := 3;
     sharpen := false; sharpenAmount := f32_one;
     contrastAlpha := f32_one; contrastBeta := 0;
     enableAiPreprocessing := false |}.

(** Only the blur on, with a kernel of extent 2. *)
Definition params_even_blur : ProcessingParams :=
  {| normalize := false; denoise := false; gain := f32_one;
     gaussianBlur := true; blurKernelSize := 2;
     sharpen := false; sharpenAmount := f32_one;
     contrastAlpha := f32_one; contrastBeta := 0;
     enableAiPreprocessing := false |}.

(** Only the normalization on. *)
Definition params_normalize : ProcessingParams :=
  {| normalize := true; denoise := false; gain := f32_one;
     gaussianBlur := false; blurKernelSize := 3;
     sharpen := false; sharpenAmount := f32_one;
     contrastAlpha := f32_one; contrastBeta := 0;
     enableAiPreprocessing := false |}.

(** Every stage on, with an odd kernel. *)
Definition params_all_on : ProcessingParams :=
  {| normalize := true; denoise := true; gain := f32_of_int 2;
     gaussianBlur := true; blurKernelSize := 5;
     sharpen := true; sharpenAmount := f32_one;
     contrastAlpha := f32_of_int 2; contrastBeta := 10;
     enableAiPreprocessing := false |}.

(** ** The rest of the decoder's interface *)

(** [cv::Mat::empty] on a matrix of any cell type. *)
Definition Mat_empty {A} (m : Mat A) : bool :=
  (zlength (data m) =? 0) || (rows m * cols m =? 0).

(** [UltraFrame::isValid] *)
Definition UltraFrame_isValid (f : UltraFrame) : bool :=
  negb (Mat_empty (frame f)) && isValid (header f).

(** The result of a call seen through a function of its value. *)
Definition omap {A B} (f : A -> B) (c : outcome A) : outcome B :=
  match c with
  | Ok a => Ok (f a)
  | Throw e => Throw e
  | UB u => UB u
  end.

(** The cells of the matrix that [extractFrameData] returns when the
    copy fits: the payload, then the cells the copy did not reach. *)
Definition copied_cells (bytes : list byte) (h : UltraHeader) : list cell :=
  let n := width h * height h * depth h * bytesPerVoxel h in
  map Some (firstn (Z.to_nat n) (skipn 32 bytes))
  ++ repeat None (Z.to_nat (height h * width h - n)).

(** [std::exception::what] *)
Definition what (e : exn) : string :=
  match e with
  | runtime_error w => w
  | cv_Exception w => w
  end.

(** ** The JNI layer ([ultrasound_jni.cpp]) *)

(** What a native method leaves behind: the value it returns, [None]
    for [0] or [nullptr], and the Java exception it has raised, as the
    class name and the message given to [ThrowNew]. *)
Record jni_result (A : Type) : Type := mkJni {
  jreturn : option A;
  jpending : option (string * string)
}.

Arguments mkJni {A} jreturn jpending.

(** The answers of the Java environment that the native methods look
    at: whether [FindClass] finds a class, whether
    [GetByteArrayElements] hands out the elements of the array (or
    null), whether [NewLongArray] returns an array (or null). *)
Record JNIEnv : Type := mkJNIEnv {
  FindClass : string -> bool;
  GetByteArrayElements_ok : bool;
  NewLongArray_ok : bool
}.

(** [exClass = env->FindClass(cls); if (exClass) env->ThrowNew(exClass,
    msg);] *)
Definition throw_java (env : JNIEnv) (cls msg : string)
  : option (string * string) :=
  if FindClass env cls then Some (cls, msg) else None.

(** [jbyteArrayToVector]: a vector of [length] zero bytes, overwritten
    with the elements of the array when they are handed out.  The
    array is a Java [byte[]] that is not null, given by its bytes. *)
Definition jbyteArrayToVector (env : JNIEnv) (array : list byte) : list byte :=
  let result := repeat x00 (List.length array) in
  if GetByteArrayElements_ok env then array else result.

(** [static_cast<jlong>] of an unsigned 64-bit value. *)
Definition to_jlong (z : Z) : Z := if z <? 2 ^ 63 then z else z - 2 ^ 64.

(** The samples of a decoded matrix as the pipeline reads them; [junk
    i] is what the cell of index [i] holds when nothing was copied into
    it. *)
Definition samples (junk : nat -> Z) (m : Mat cell) : image :=
  mkMat (rows m) (cols m)
    (map (fun ic => match snd ic with
                    | Some b => byte_val b
                    | None => junk (fst ic)
                    end)
         (combine (seq 0 (List.length (data m))) (data m))).

(** The [ProcessingParams] that [nativeProcessFrame] builds: the
    defaults, with three fields assigned. *)
Definition jni_params (normalize denoise : bool) (gain : spec_float)
  : ProcessingParams :=
  {| normalize := normalize;
     denoise := denoise;
     gain := gain;
     gaussianBlur := gaussianBlur default_params;
     blurKernelSize := blurKernelSize default_params;
     sharpen := sharpen default_params;
     sharpenAmount := sharpenAmount default_params;
     contrastAlpha := contrastAlpha default_params;
     contrastBeta := contrastBeta default_params;
     enableAiPreprocessing := enableAiPreprocessing default_params |}.

(** [Java_..._nativeProcessFrame].  [handle] is 0 or the address that
    [nativeInit] returned; the mutex is not modelled.  An exception of
    the core is caught and raised again as a Java exception; undefined
    behaviour is not caught. *)
Definition nativeProcessFrame (env : JNIEnv) (cv : OpenCV) (junk : nat -> Z)
    (handle : Z) (data : list byte) (normalize denoise : bool)
    (gain : spec_float) : outcome (jni_result image) :=
  if handle =? 0 then
    Ok (mkJni None
          (throw_java env "java/lang/IllegalArgumentException"
                      "Invalid SDK handle"))
  else
    let frameData := jbyteArrayToVector env data in
    let body :=
      ultraFrame <- loadFrameFromBytes frameData ;;
      let params := jni_params normalize denoise gain in
      processedFrame <-
        snd (applyFilters cv (samples junk (frame ultraFrame)) params) ;;
      Ok (clone processedFrame) in
    match body with
    | Ok resultMat => Ok (mkJni (Some resultMat) None)
    | Throw e =>
        Ok (mkJni None
              (throw_java env "java/lang/RuntimeException" (what e)))
    | UB u => UB u
    end.

(** [Java_..._nativeGetFrameMetadata]: the array [[frameNumber,
    timestamp]] as two [jlong]. *)
Definition nativeGetFrameMetadata (env : JNIEnv) (handle : Z)
    (data : list byte) : outcome (jni_result (list Z)) :=
  if handle =? 0 then
    Ok (mkJni None
          (throw_java env "java/lang/IllegalArgumentException"
                      "Invalid SDK handle"))
  else
    let frameData := jbyteArrayToVector env data in
    match loadFrameFromBytes frameData with
    | Ok ultraFrame =>
        let result :=
          if NewLongArray_ok env
          then Some [to_jlong (frameNumber (header ultraFrame));
                     to_jlong (timestamp (header ultraFrame))]
          else None in
        Ok (mkJni result None)
    | Throw e =>
        Ok (mkJni None
              (throw_java env "java/lang/RuntimeException" (what e)))
    | UB u => UB u
    end.

(** An environment in which every class is found and every request is
    served. *)
Definition env_ok : JNIEnv :=
  {| FindClass := fun _ => true;
     GetByteArrayElements_ok := true;
     NewLongArray_ok := true |}.

(** ** Long runs of zero bytes through the CRC register *)

(** One zero byte through the register. *)
Definition zero_byte (c : Z) : Z := crc32_byte c x00.

(** A map of the register that goes along with the exclusive or. *)
Definition additive (g : Z -> Z) : Prop :=
  forall a b, g (Z.lxor a b) = Z.lxor (g a) (g b).

Definition xor_if (b : bool) (v : Z) : Z := if b then v else 0.

(** The image of [c] under the additive map whose value at
    [2 ^ (i + k)] is the [k]-th element of [cols]. *)
Fixpoint apply_cols (cols : list Z) (i : Z) (c : Z) : Z :=
  match cols with
  | [] => 0
  | col :: rest =>
      Z.lxor (xor_if (Z.testbit c i) col) (apply_cols rest (i + 1) c)
  end.

(** The values of [g] at the 32 powers of two. *)
Definition columns (g : Z -> Z) : list Z :=
  map (fun i => g (2 ^ Z.of_nat i)) (seq 0 32).

(** The columns of [2 ^ k] zero bytes through the register, by
    repeated squaring. *)
Fixpoint zero_run (k : nat) : list Z :=
  match k with
  | O => columns zero_byte
  | S k' =>
      let M := zero_run k' in
      columns (fun c => apply_cols M 0 (apply_cols M 0 c))
  end.

(** The bits [s .. s + n - 1] of [c], in place. *)
Definition slice (c s n : Z) : Z := Z.land c (Z.shiftl (Z.ones n) s).

(** A buffer of [2 ^ 32 + 32] zero bytes. *)
Definition zeros_4GiB_32 : list byte := repeat x00 (2 ^ 32 + 32).

(* ================================================================== *)
(** * Part II: properties                                              *)
(* ================================================================== *)

Example crc32_check_value :
  crc32 0 (list_byte_of_string "123456789") = 0xCBF43926.
Proof. vm_compute. reflexivity. Qed.

Example f32_one_value : f32_one = S754_finite false 8388608 (-23).
Proof. reflexivity. Qed.

Example float_ne_examples :
  float_ne f32_one f32_one = false /\
  float_ne (f32_of_int 2) f32_one = true /\
  float_ne S754_nan f32_one = true.
Proof. repeat split. Qed.

(** The concrete scenarios of the specification. *)
Example scenario_A :
  isValid header_A = true /\
  getFrameDataSize header_A = 16384 /\
  loadFrameFromBytes (encode header_A payload_A) =
  Ok (mkUltraFrame header_A (mkMat 128 128 (map Some payload_A))).
Proof. repeat split; vm_compute; reflexivity. Qed.

Example scenario_B :
  loadFrameFromBytes
    (encode (mkUltraHeader 0 128 128 1 1 7 1000 0 0) payload_A) =
  Throw InvalidHeaderError.
Proof. vm_compute. reflexivity. Qed.

Example scenario_C :
  loadFrameFromBytes (repeat x00 10) = Throw FormatError.
Proof. vm_compute. reflexivity. Qed.

Example scenario_D (cv : OpenCV) (p : ProcessingParams) :
  applyFilters cv (mkMat 0 0 []) p = ([], Throw EmptyFrameError).
Proof. reflexivity. Qed.

(** ** Bytes and little-endian integers *)

Lemma byte_val_range (b : byte) : 0 <= byte_val b < 256.
Proof.
  unfold byte_val. pose proof (Byte.to_N_bounded b) as H. lia.
Qed.

Lemma byte_val_of_Z (z : Z) : byte_val (byte_of_Z z) = z mod 256.
Proof.
  unfold byte_val, byte_of_Z.
  assert (Hr : 0 <= z mod 256 < 256) by (apply Z.mod_pos_bound; lia).
  destruct (Byte.of_N (Z.to_N (z mod 256))) as [b|] eqn:E.
  - apply Byte.to_of_N in E. rewrite E. lia.
  - apply Byte.of_N_None_iff in E. lia.
Qed.

Lemma le_uint_range (bs : list byte) :
  0 <= le_uint bs < 2 ^ (8 * zlength bs).
Proof.
  unfold zlength. induction bs as [|b bs IH]; cbn [le_uint List.length].
  - cbn. lia.
  - pose proof (byte_val_range b).
    replace (8 * Z.of_nat (S (List.length bs)))
      with (8 + 8 * Z.of_nat (List.length bs)) by lia.
    rewrite Z.pow_add_r by lia. change (2 ^ 8) with 256. nia.
Qed.

Lemma length_le_bytes (n : nat) (v : Z) : List.length (le_bytes n v) = n.
Proof.
  revert v. induction n as [|n IH]; intro v; cbn; [reflexivity|].
  now rewrite IH.
Qed.

Lemma le_uint_le_bytes (n : nat) (v : Z) :
  le_uint (le_bytes n v) = v mod 2 ^ (8 * Z.of_nat n).
Proof.
  revert v. induction n as [|n IH]; intro v.
  - cbn. now rewrite Z.mod_1_r.
  - cbn [le_bytes le_uint]. rewrite byte_val_of_Z, IH.
    replace (8 * Z.of_nat (S n)) with (8 + 8 * Z.of_nat n) by lia.
    rewrite Z.pow_add_r by lia. change (2 ^ 8) with 256.
    rewrite (Z.rem_mul_r v 256 (2 ^ (8 * Z.of_nat n))) by lia.
    reflexivity.
Qed.

Lemma le_uint_le_bytes_id (n : nat) (v : Z) :
  0 <= v < 2 ^ (8 * Z.of_nat n) -> le_uint (le_bytes n v) = v.
Proof.
  intro H. rewrite le_uint_le_bytes. now apply Z.mod_small.
Qed.

Lemma read_le_range (bytes : list byte) (off size : nat) :
  0 <= read_le bytes off size < 2 ^ (8 * Z.of_nat size).
Proof.
  unfold read_le.
  pose proof (le_uint_range (firstn size (skipn off bytes))) as H.
  assert (Hl : zlength (firstn size (skipn off bytes)) <= Z.of_nat size).
  { unfold zlength. rewrite length_firstn. lia. }
  split; [lia|].
  eapply Z.lt_le_trans; [apply H|].
  apply Z.pow_le_mono_r; lia.
Qed.

(** ** Headers *)

Lemma parseHeader_in_range (bytes : list byte) :
  header_in_range (parseHeader bytes).
Proof.
  unfold header_in_range, parseHeader; cbn [magicId width height depth
    bytesPerVoxel frameNumber timestamp reserved crc].
  repeat split; try apply read_le_range;
    match goal with
    | |- read_le ?b ?o ?s < _ => apply (read_le_range b o s)
    end.
Qed.

(** The [size_t] product of four 16-bit fields never wraps. *)
Lemma getFrameDataSize_exact (h : UltraHeader) :
  header_in_range h ->
  getFrameDataSize h = width h * height h * depth h * bytesPerVoxel h.
Proof.
  intros (_ & Hw & Hh & Hd & Hb & _).
  unfold getFrameDataSize, wrap_size_t, size_t_bits.
  assert (H1 : 0 <= width h * height h <= 65535 * 65535) by nia.
  rewrite (Z.mod_small (width h * height h)) by lia.
  assert (H2 : 0 <= width h * height h * depth h <= 65535 * 65535 * 65535)
    by nia.
  rewrite (Z.mod_small (width h * height h * depth h)) by lia.
  apply Z.mod_small.
  assert (H3 : 0 <= width h * height h * depth h * bytesPerVoxel h
               <= 65535 * 65535 * 65535 * 65535) by nia.
  lia.
Qed.

Lemma expectedSize_exact (h : UltraHeader) :
  header_in_range h ->
  wrap_size_t (HEADER_SIZE + getFrameDataSize h) =
  32 + width h * height h * depth h * bytesPerVoxel h.
Proof.
  intro Hr. rewrite (getFrameDataSize_exact Hr).
  destruct Hr as (_ & Hw & Hh & Hd & Hb & _).
  unfold wrap_size_t, size_t_bits, HEADER_SIZE.
  apply Z.mod_small.
  assert (H1 : 0 <= width h * height h <= 65535 * 65535) by nia.
  assert (H2 : 0 <= width h * height h * depth h <= 65535 * 65535 * 65535)
    by nia.
  assert (H3 : 0 <= width h * height h * depth h * bytesPerVoxel h
               <= 65535 * 65535 * 65535 * 65535) by nia.
  lia.
Qed.

Lemma isValid_spec (h : UltraHeader) :
  header_in_range h ->
  isValid h = false <->
  magicId h <> MAGIC_ID \/ width h = 0 \/ height h = 0 \/ bytesPerVoxel h = 0.
Proof.
  intros (_ & Hw & Hh & _ & Hb & _). unfold isValid.
  rewrite !andb_false_iff, Z.eqb_neq, !Z.ltb_ge. lia.
Qed.

(** ** Encoded frames *)

Lemma length_encodeHeader (h : UltraHeader) :
  List.length (encodeHeader h) = 32%nat.
Proof.
  unfold encodeHeader. rewrite !length_app, !length_le_bytes. reflexivity.
Qed.

Lemma zlength_encode (h : UltraHeader) (payload : list byte) :
  zlength (encode h payload) = 32 + zlength payload.
Proof.
  unfold zlength, encode. rewrite length_app, length_encodeHeader. lia.
Qed.

Lemma skipn_encode (h : UltraHeader) (payload : list byte) :
  skipn 32 (encode h payload) = payload.
Proof.
  unfold encode. rewrite skipn_app, length_encodeHeader.
  rewrite skipn_all2 by (rewrite length_encodeHeader; lia).
  reflexivity.
Qed.

Ltac read_field :=
  unfold read_le, encode, encodeHeader;
  cbn [le_bytes app skipn firstn];
  match goal with
  | |- le_uint ?l = ?v =>
      let n := eval cbv in (List.length l) in
      change (le_uint (le_bytes n v) = v);
      apply le_uint_le_bytes_id; cbn; lia
  end.

Lemma parseHeader_encode (h : UltraHeader) (payload : list byte) :
  header_in_range h -> parseHeader (encode h payload) = h.
Proof.
  intros (Hm & Hw & Hh & Hd & Hb & Hf & Ht & Hr & Hc).
  destruct h as [m w hh d b f t r c]; cbn in *.
  unfold parseHeader. f_equal; read_field.
Qed.

(** ** Copying the payload *)

Lemma zlength_repeat {A} (x : A) (n : Z) :
  0 <= n -> zlength (repeat x (Z.to_nat n)) = n.
Proof. intro H. unfold zlength. rewrite repeat_length. lia. Qed.

Lemma skipn_repeat_all {A} (x : A) (n : nat) : skipn n (repeat x n) = [].
Proof. apply skipn_all2. rewrite repeat_length. lia. Qed.

(** [memcpy] returns exactly when every index it touches is inside its
    buffer. *)
Lemma memcpy_in_bounds (dst : list cell) (src : list byte) (off n : Z) :
  0 <= off <= zlength src -> 0 <= n ->
  is_Ok (memcpy dst src off n) = true <->
  forall k, 0 <= k < n -> off + k < zlength src /\ k < zlength dst.
Proof.
  intros Hoff Hn. unfold memcpy.
  destruct (zlength src <? off + n) eqn:E1;
    [|destruct (zlength dst <? n) eqn:E2]; cbn [is_Ok].
  - apply Z.ltb_lt in E1. split; [discriminate|]. intro H.
    destruct (Z.eq_dec n 0) as [->|Hz].
    + lia.
    + destruct (H (n - 1)); lia.
  - apply Z.ltb_lt in E2. split; [discriminate|]. intro H.
    assert (Hd : 0 <= zlength dst) by (unfold zlength; lia).
    destruct (H (n - 1)); lia.
  - apply Z.ltb_ge in E1, E2. split; [|reflexivity]. intros _ k Hk. lia.
Qed.

Lemma extractFrameData_fits (bytes : list byte) (h : UltraHeader) :
  0 <= height h * width h ->
  HEADER_SIZE + getFrameDataSize h <= zlength bytes ->
  getFrameDataSize h = height h * width h ->
  extractFrameData bytes h =
  Ok (mkMat (height h) (width h)
        (map Some (firstn (Z.to_nat (height h * width h)) (skipn 32 bytes)))).
Proof.
  intros Hpos Hlen Hsz. unfold extractFrameData, Mat_create, memcpy.
  cbn [data rows cols]. rewrite Hsz in *.
  rewrite zlength_repeat by assumption.
  destruct (zlength bytes <? HEADER_SIZE + height h * width h) eqn:E1;
    [apply Z.ltb_lt in E1; lia|].
  rewrite Z.ltb_irrefl. cbn [obind].
  rewrite skipn_repeat_all, app_nil_r. reflexivity.
Qed.

Lemma extractFrameData_overflow (bytes : list byte) (h : UltraHeader) :
  0 <= height h * width h ->
  HEADER_SIZE + getFrameDataSize h <= zlength bytes ->
  height h * width h < getFrameDataSize h ->
  extractFrameData bytes h = UB WriteOutOfBounds.
Proof.
  intros Hpos Hlen Hsz. unfold extractFrameData, Mat_create, memcpy.
  cbn [data rows cols]. rewrite zlength_repeat by assumption.
  destruct (zlength bytes <? HEADER_SIZE + getFrameDataSize h) eqn:E1;
    [apply Z.ltb_lt in E1; lia|].
  destruct (height h * width h <? getFrameDataSize h) eqn:E2;
    [reflexivity | apply Z.ltb_ge in E2; lia].
Qed.

(** ** The decoder past its three checks *)

Lemma loadFrameFromBytes_accepted (bytes : list byte) :
  HEADER_SIZE <= zlength bytes ->
  isValid (parseHeader bytes) = true ->
  HEADER_SIZE + getFrameDataSize (parseHeader bytes) <= zlength bytes ->
  loadFrameFromBytes bytes =
  (f <- extractFrameData bytes (parseHeader bytes) ;;
   Ok (mkUltraFrame (parseHeader bytes) f)).
Proof.
  intros Hlen Hval Hsz. unfold loadFrameFromBytes.
  destruct (zlength bytes <? HEADER_SIZE) eqn:E0;
    [apply Z.ltb_lt in E0; lia|].
  rewrite Hval. cbn [negb].
  pose proof (parseHeader_in_range bytes) as Hr.
  rewrite (expectedSize_exact Hr).
  rewrite (getFrameDataSize_exact Hr) in Hsz. unfold HEADER_SIZE in Hsz.
  destruct (zlength bytes <? 32 + _) eqn:E2; [apply Z.ltb_lt in E2; lia|].
  reflexivity.
Qed.

Lemma extractFrameData_not_Throw (bytes : list byte) (h : UltraHeader) (e : exn) :
  extractFrameData bytes h <> Throw e.
Proof.
  unfold extractFrameData, memcpy.
  destruct (_ <? _); [discriminate|].
  destruct (_ <? _); discriminate.
Qed.

(** The round trip on the format as it is used: one plane, one byte per
    sample. *)
Lemma decode_encode_single_byte (h : UltraHeader) (payload : list byte) :
  header_in_range h ->
  isValid h = true ->
  depth h = 1 -> bytesPerVoxel h = 1 ->
  zlength payload = width h * height h * depth h * bytesPerVoxel h ->
  loadFrameFromBytes (encode h payload) =
  Ok (mkUltraFrame h (mkMat (height h) (width h) (map Some payload))).
Proof.
  intros Hr Hv Hd Hb Hp.
  assert (Hsz : getFrameDataSize h = height h * width h).
  { rewrite (getFrameDataSize_exact Hr), Hd, Hb. lia. }
  assert (Hlen : zlength payload = height h * width h) by (rewrite Hp, Hd, Hb; lia).
  rewrite loadFrameFromBytes_accepted;
    rewrite ?parseHeader_encode, ?zlength_encode by assumption;
    try assumption; try (unfold HEADER_SIZE; unfold zlength in *; lia).
  rewrite extractFrameData_fits;
    rewrite ?zlength_encode; try assumption;
    try (unfold HEADER_SIZE; unfold zlength in *; lia).
  cbn [obind]. rewrite skipn_encode, <- Hlen.
  unfold zlength. rewrite Nat2Z.id, firstn_all. reflexivity.
Qed.

(** The round trip on any other valid header with a payload: the copy
    leaves the matrix. *)
Lemma decode_encode_overflow (h : UltraHeader) (payload : list byte) :
  header_in_range h ->
  isValid h = true ->
  1 < depth h * bytesPerVoxel h ->
  zlength payload = width h * height h * depth h * bytesPerVoxel h ->
  loadFrameFromBytes (encode h payload) = UB WriteOutOfBounds.
Proof.
  intros Hr Hv Hdb Hp.
  pose proof (getFrameDataSize_exact Hr) as Hfs.
  assert (Hwh : 0 < width h /\ 0 < height h).
  { unfold isValid in Hv. rewrite !andb_true_iff, !Z.ltb_lt in Hv. tauto. }
  rewrite loadFrameFromBytes_accepted;
    rewrite ?parseHeader_encode, ?zlength_encode by assumption;
    try assumption; try (unfold HEADER_SIZE; lia).
  rewrite extractFrameData_overflow; [reflexivity | nia | |].
  - rewrite zlength_encode. unfold HEADER_SIZE. lia.
  - rewrite Hfs, <- Z.mul_assoc.
    assert (0 < width h * height h) by nia.
    rewrite (Z.mul_comm (height h)). nia.
Qed.

Lemma header_in_range_parse_bounds (bytes : list byte) :
  0 <= height (parseHeader bytes) * width (parseHeader bytes).
Proof.
  destruct (parseHeader_in_range bytes) as (_ & Hw & Hh & _). nia.
Qed.

(** Past the three checks the decoder returns the parsed header and the
    copied payload whatever [validateCrc] answered, as long as the
    payload fits the matrix. *)
Lemma loadFrameFromBytes_ignores_crc (bytes : list byte) :
  HEADER_SIZE <= zlength bytes ->
  isValid (parseHeader bytes) = true ->
  HEADER_SIZE + getFrameDataSize (parseHeader bytes) <= zlength bytes ->
  depth (parseHeader bytes) = 1 -> bytesPerVoxel (parseHeader bytes) = 1 ->
  forall crc_matches : bool,
    validateCrc bytes (crc (parseHeader bytes)) = crc_matches ->
    loadFrameFromBytes bytes =
    Ok (mkUltraFrame (parseHeader bytes)
          (mkMat (height (parseHeader bytes)) (width (parseHeader bytes))
             (map Some
                (firstn (Z.to_nat (height (parseHeader bytes)
                                   * width (parseHeader bytes)))
                        (skipn 32 bytes))))).
Proof.
  intros Hlen Hv Hsz Hd Hb crc_matches _.
  rewrite loadFrameFromBytes_accepted by assumption.
  rewrite extractFrameData_fits; try assumption.
  - reflexivity.
  - apply header_in_range_parse_bounds.
  - rewrite (getFrameDataSize_exact (parseHeader_in_range bytes)), Hd, Hb. lia.
Qed.

Example decode_with_checksum_mismatch :
  validateCrc (encode header_2x2 payload_2x2) (crc header_2x2) = false /\
  loadFrameFromBytes (encode header_2x2 payload_2x2) =
  Ok (mkUltraFrame header_2x2 (mkMat 2 2 (map Some payload_2x2))).
Proof. split; vm_compute; reflexivity. Qed.

Example decode_with_checksum_match :
  validateCrc (encode header_2x2_crc payload_2x2) (crc header_2x2_crc) = true /\
  loadFrameFromBytes (encode header_2x2_crc payload_2x2) =
  Ok (mkUltraFrame header_2x2_crc (mkMat 2 2 (map Some payload_2x2))).
Proof. split; vm_compute; reflexivity. Qed.

(** With no plane announced nothing is copied and the matrix keeps its
    indeterminate cell. *)
Example decode_no_plane :
  isValid header_no_plane = true /\
  loadFrameFromBytes (encode header_no_plane []) =
  Ok (mkUltraFrame header_no_plane (mkMat 1 1 [None])).
Proof. split; vm_compute; reflexivity. Qed.

(** ** The claims on the decoder *)

(** C1 (code defect): the round-trip law fails on a valid header that
    announces two planes.  The header passes [isValid], the payload has
    the announced length [width * height * depth * bytesPerVoxel = 2],
    and decoding the encoded frame copies those two bytes into the
    one-byte matrix of [height * width] cells: the copy writes outside
    the matrix, and no header and matrix are returned. *)
Theorem roundtrip_two_planes_overflows :
  header_in_range header_two_planes /\
  isValid header_two_planes = true /\
  zlength payload_two_planes =
    width header_two_planes * height header_two_planes
    * depth header_two_planes * bytesPerVoxel header_two_planes /\
  loadFrameFromBytes (encode header_two_planes payload_two_planes) =
    UB WriteOutOfBounds /\
  forall m, loadFrameFromBytes (encode header_two_planes payload_two_planes)
            <> Ok (mkUltraFrame header_two_planes m).
Proof.
  assert (E : loadFrameFromBytes (encode header_two_planes payload_two_planes)
              = UB WriteOutOfBounds) by (vm_compute; reflexivity).
  split; [vm_compute; repeat split; congruence|].
  split; [reflexivity|]. split; [reflexivity|]. split; [exact E|].
  intros m H. rewrite E in H. discriminate.
Qed.

(** C3 (code defect): an input of at least 32 bytes, with a valid
    header and at least [32 + frameDataSize] bytes, on which decoding
    does not succeed: the header announces two bytes per sample, and
    the copy of the four payload bytes leaves the two-cell matrix.  The
    checksum plays no part in it; see [loadFrameFromBytes_ignores_crc]
    for the inputs whose payload fits. *)
Theorem decode_wide_samples_overflows :
  HEADER_SIZE <= zlength (encode header_wide_samples payload_wide_samples) /\
  isValid (parseHeader (encode header_wide_samples payload_wide_samples)) = true /\
  HEADER_SIZE
    + getFrameDataSize (parseHeader (encode header_wide_samples payload_wide_samples))
    <= zlength (encode header_wide_samples payload_wide_samples) /\
  loadFrameFromBytes (encode header_wide_samples payload_wide_samples) =
    UB WriteOutOfBounds.
Proof.
  repeat split; vm_compute; congruence.
Qed.

(** C4: on an input that passes the three checks of the decoder and
    announces [depth = 1] and [bytesPerVoxel = 1], [extractFrameData]
    copies exactly [width * height] bytes, the [k]-th from index
    [32 + k] of the input to index [k] of the fresh [height] by [width]
    matrix; every index read lies inside the input and every index
    written inside the matrix.  The precondition is needed: a header
    that passes the checks may announce [depth * bytesPerVoxel > 1],
    and then the copy of [width * height * depth * bytesPerVoxel] bytes
    writes outside the [width * height] cells of the matrix. *)
Theorem extractFrameData_in_bounds (bytes : list byte) :
  HEADER_SIZE <= zlength bytes ->
  isValid (parseHeader bytes) = true ->
  HEADER_SIZE + getFrameDataSize (parseHeader bytes) <= zlength bytes ->
  let h := parseHeader bytes in
  let fresh := Mat_create (height h) (width h) in
  (depth h = 1 -> bytesPerVoxel h = 1 ->
     getFrameDataSize h = width h * height h /\
     zlength (data fresh) = width h * height h /\
     (forall k, 0 <= k < width h * height h ->
        0 <= read_index k < zlength bytes /\
        0 <= write_index k < zlength (data fresh)) /\
     extractFrameData bytes h =
       Ok (mkMat (height h) (width h)
             (map Some (firstn (Z.to_nat (width h * height h))
                               (skipn 32 bytes))))) /\
  (1 < depth h * bytesPerVoxel h ->
     zlength (data fresh) < getFrameDataSize h /\
     extractFrameData bytes h = UB WriteOutOfBounds) /\
  (exists bytes',
     HEADER_SIZE <= zlength bytes' /\
     isValid (parseHeader bytes') = true /\
     HEADER_SIZE + getFrameDataSize (parseHeader bytes') <= zlength bytes' /\
     1 < depth (parseHeader bytes') * bytesPerVoxel (parseHeader bytes')).
Proof.
  intros Hlen Hv Hsz h fresh. subst h fresh.
  pose proof (parseHeader_in_range bytes) as Hr.
  pose proof (getFrameDataSize_exact Hr) as Hfs.
  set (h := parseHeader bytes) in *.
  assert (Hwh : 0 < width h /\ 0 < height h).
  { unfold isValid in Hv. rewrite !andb_true_iff, !Z.ltb_lt in Hv. tauto. }
  assert (Hcells : zlength (data (Mat_create (height h) (width h)))
                   = width h * height h).
  { unfold Mat_create. cbn [data]. rewrite zlength_repeat by nia. lia. }
  split; [|split].
  - intros Hd Hb.
    assert (Hfs' : getFrameDataSize h = width h * height h)
      by (rewrite Hfs, Hd, Hb; lia).
    split; [exact Hfs'|]. split; [exact Hcells|]. split.
    + intros k Hk. unfold read_index, write_index.
      rewrite Hcells. unfold HEADER_SIZE in *. lia.
    + rewrite extractFrameData_fits; try assumption; try nia; try lia.
      now rewrite (Z.mul_comm (height h)).
  - intro Hdb.
    assert (width h * height h < getFrameDataSize h).
    { rewrite Hfs, <- !Z.mul_assoc.
      assert (0 < width h * height h) by nia.
      rewrite Z.mul_assoc. nia. }
    split; [lia|].
    apply extractFrameData_overflow; try assumption; nia.
  - exists (encode header_two_planes payload_two_planes).
    repeat split; vm_compute; congruence.
Qed.

(** An instance: the encoded 2 by 2 frame. *)
Lemma extractFrameData_in_bounds_witness :
  let bytes := encode header_2x2 payload_2x2 in
  HEADER_SIZE <= zlength bytes /\
  isValid (parseHeader bytes) = true /\
  HEADER_SIZE + getFrameDataSize (parseHeader bytes) <= zlength bytes /\
  depth (parseHeader bytes) = 1 /\ bytesPerVoxel (parseHeader bytes) = 1 /\
  extractFrameData bytes (parseHeader bytes) =
    Ok (mkMat 2 2 (map Some payload_2x2)).
Proof.
  intro bytes.
  assert (H1 : HEADER_SIZE <= zlength bytes) by (vm_compute; congruence).
  assert (H2 : isValid (parseHeader bytes) = true) by (vm_compute; reflexivity).
  assert (H3 : HEADER_SIZE + getFrameDataSize (parseHeader bytes)
               <= zlength bytes) by (vm_compute; congruence).
  assert (H4 : depth (parseHeader bytes) = 1) by (vm_compute; reflexivity).
  assert (H5 : bytesPerVoxel (parseHeader bytes) = 1) by (vm_compute; reflexivity).
  repeat (split; [assumption|]).
  destruct (extractFrameData_in_bounds bytes H1 H2 H3) as [Hfit _].
  destruct (Hfit H4 H5) as (_ & _ & _ & E).
  rewrite E. vm_compute. reflexivity.
Defined.

(** C7: on an input of at least 32 bytes the decoder fails with the
    invalid-header error exactly when the parsed magic differs from
    [MAGIC_ID], or the parsed width, height or bytes per sample is 0. *)
Theorem loadFrameFromBytes_InvalidHeaderError (bytes : list byte) :
  HEADER_SIZE <= zlength bytes ->
  loadFrameFromBytes bytes = Throw InvalidHeaderError <->
  magicId (parseHeader bytes) <> MAGIC_ID \/
  width (parseHeader bytes) = 0 \/
  height (parseHeader bytes) = 0 \/
  bytesPerVoxel (parseHeader bytes) = 0.
Proof.
  intro Hlen.
  rewrite <- (isValid_spec (parseHeader_in_range bytes)).
  unfold loadFrameFromBytes.
  destruct (zlength bytes <? HEADER_SIZE) eqn:E0;
    [apply Z.ltb_lt in E0; lia|].
  destruct (isValid (parseHeader bytes)) eqn:Ev; cbn [negb].
  - split; [|discriminate].
    destruct (zlength bytes <? wrap_size_t _) eqn:E2; [discriminate|].
    cbv zeta. intro H.
    destruct (extractFrameData bytes (parseHeader bytes)) eqn:Ex;
      cbn [obind] in H; try discriminate.
    exfalso. exact (extractFrameData_not_Throw _ _ Ex).
  - split; reflexivity.
Qed.

(** An instance: the header of scenario B, with a magic of 0. *)
Lemma loadFrameFromBytes_InvalidHeaderError_witness :
  let bytes := encode (mkUltraHeader 0 2 2 1 1 7 1000 0 0) payload_2x2 in
  HEADER_SIZE <= zlength bytes /\
  loadFrameFromBytes bytes = Throw InvalidHeaderError.
Proof.
  intro bytes.
  assert (H1 : HEADER_SIZE <= zlength bytes) by (vm_compute; congruence).
  split; [exact H1|].
  apply (proj2 (loadFrameFromBytes_InvalidHeaderError bytes H1)).
  left. vm_compute. congruence.
Defined.

(** C8: on an input of at least 32 bytes with a valid header the
    decoder fails with the size-mismatch error exactly when the input
    is shorter than [32 + width * height * depth * bytesPerVoxel]; an
    input of that length or longer passes the check, and no error is
    thrown for it. *)
Theorem loadFrameFromBytes_SizeMismatchError (bytes : list byte) :
  HEADER_SIZE <= zlength bytes ->
  isValid (parseHeader bytes) = true ->
  let h := parseHeader bytes in
  let total := 32 + width h * height h * depth h * bytesPerVoxel h in
  (loadFrameFromBytes bytes = Throw SizeMismatchError <->
   zlength bytes < total) /\
  (total <= zlength bytes ->
   forall e, loadFrameFromBytes bytes <> Throw e).
Proof.
  intros Hlen Hv h total. subst h total.
  pose proof (parseHeader_in_range bytes) as Hr.
  split.
  - unfold loadFrameFromBytes.
    destruct (zlength bytes <? HEADER_SIZE) eqn:E0;
      [apply Z.ltb_lt in E0; lia|].
    rewrite Hv. cbn [negb]. rewrite (expectedSize_exact Hr).
    destruct (zlength bytes <? 32 + _) eqn:E2.
    + apply Z.ltb_lt in E2. split; [intros _; exact E2 | reflexivity].
    + apply Z.ltb_ge in E2. cbv zeta. split; [|lia].
      intro H.
      destruct (extractFrameData bytes (parseHeader bytes)) eqn:Ex;
        cbn [obind] in H; try discriminate.
      exfalso. exact (extractFrameData_not_Throw _ _ Ex).
  - intros Htot e H.
    rewrite loadFrameFromBytes_accepted in H; try assumption.
    + destruct (extractFrameData bytes (parseHeader bytes)) eqn:Ex;
        cbn [obind] in H; try discriminate.
      exact (extractFrameData_not_Throw _ _ Ex).
    + rewrite (getFrameDataSize_exact Hr). unfold HEADER_SIZE. lia.
Qed.

(** An instance: the 2 by 2 frame cut one byte short. *)
Lemma loadFrameFromBytes_SizeMismatchError_witness :
  let bytes := firstn 35 (encode header_2x2 payload_2x2) in
  HEADER_SIZE <= zlength bytes /\
  isValid (parseHeader bytes) = true /\
  loadFrameFromBytes bytes = Throw SizeMismatchError.
Proof.
  intro bytes.
  assert (H1 : HEADER_SIZE <= zlength bytes) by (vm_compute; congruence).
  assert (H2 : isValid (parseHeader bytes) = true) by (vm_compute; reflexivity).
  split; [exact H1|]. split; [exact H2|].
  apply (proj2 (proj1 (loadFrameFromBytes_SizeMismatchError bytes H1 H2))).
  vm_compute. reflexivity.
Defined.

(** ** The checksum *)

Lemma lxor_below (n a b : Z) :
  0 <= n -> 0 <= a < 2 ^ n -> 0 <= b < 2 ^ n -> 0 <= Z.lxor a b < 2 ^ n.
Proof.
  intros Hn Ha Hb.
  assert (H0 : 0 <= Z.lxor a b) by (apply Z.lxor_nonneg; lia).
  split; [exact H0|].
  destruct (Z.eq_dec (Z.lxor a b) 0) as [->|Hnz];
    [apply Z.pow_pos_nonneg; lia|].
  assert (Hpos : 0 < n).
  { destruct (Z.eq_dec n 0) as [->|]; [|lia].
    change (2 ^ 0) with 1 in Ha, Hb.
    replace a with 0 in Hnz by lia. replace b with 0 in Hnz by lia.
    now contradiction Hnz. }
  apply Z.log2_lt_pow2; [lia|].
  eapply Z.le_lt_trans; [apply Z.log2_lxor; lia|].
  apply Z.max_lub_lt.
  - destruct (Z.eq_dec a 0) as [->|]; [cbn; lia|]. apply Z.log2_lt_pow2; lia.
  - destruct (Z.eq_dec b 0) as [->|]; [cbn; lia|]. apply Z.log2_lt_pow2; lia.
Qed.

Lemma crc32_bit_range (c : Z) :
  0 <= c < 2 ^ 32 -> 0 <= crc32_bit c < 2 ^ 32.
Proof.
  intro Hc. unfold crc32_bit.
  assert (Hs : 0 <= Z.shiftr c 1 < 2 ^ 32).
  { rewrite Z.shiftr_div_pow2 by lia. change (2 ^ 1) with 2.
    split; [apply Z.div_pos; lia|].
    apply Z.div_lt_upper_bound; lia. }
  destruct (Z.testbit c 0); [|exact Hs].
  apply lxor_below; [lia | exact Hs | unfold crc32_poly; lia].
Qed.

Lemma crc32_byte_range (c : Z) (b : byte) :
  0 <= c < 2 ^ 32 -> 0 <= crc32_byte c b < 2 ^ 32.
Proof.
  intro Hc. unfold crc32_byte.
  assert (H : 0 <= Z.lxor c (byte_val b) < 2 ^ 32).
  { apply lxor_below; [lia | exact Hc |]. pose proof (byte_val_range b). lia. }
  cbn [Nat.iter]. now do 8 apply crc32_bit_range.
Qed.

(** The checksum fits the 32 bits it is returned in. *)
Lemma crc32_range (buf : list byte) : 0 <= crc32 0 buf < 2 ^ 32.
Proof.
  unfold crc32. apply lxor_below; [lia | | lia].
  assert (H : 0 <= Z.lxor 0 4294967295 < 2 ^ 32) by (cbn; lia). revert H.
  generalize (Z.lxor 0 4294967295).
  induction buf as [|b buf IH]; intros c Hc.
  - exact Hc.
  - cbn [fold_left]. apply IH. now apply crc32_byte_range.
Qed.

Lemma calculateCrc32_tail (bytes : list byte) :
  28 <= zlength bytes < 2 ^ 32 + 28 ->
  calculateCrc32 (skipn 28 bytes) (zlength bytes - 28) =
  crc32 0 (skipn 28 bytes).
Proof.
  intro Hlen. unfold calculateCrc32, wrap_uInt.
  rewrite (Z.mod_small (zlength bytes - 28)) by lia. rewrite firstn_all2.
  - apply Z.mod_small, crc32_range.
  - rewrite length_skipn. unfold zlength. lia.
Qed.

(** X20: on a buffer of at least 32 bytes whose length from offset 28
    on fits the 32-bit length of [crc32], [validateCrc] answers true
    exactly when the CRC-32 of the bytes from offset 28 to the end is
    the expected value, and false, without failing, exactly when it is
    not. *)
Lemma validateCrc_spec (bytes : list byte) (expectedCrc : Z) :
  HEADER_SIZE <= zlength bytes < 2 ^ 32 + 28 ->
  (validateCrc bytes expectedCrc = true <->
   crc32 0 (skipn 28 bytes) = expectedCrc) /\
  (validateCrc bytes expectedCrc = false <->
   crc32 0 (skipn 28 bytes) <> expectedCrc).
Proof.
  intro Hlen. unfold validateCrc.
  destruct (zlength bytes <? HEADER_SIZE) eqn:E0;
    [apply Z.ltb_lt in E0; lia|].
  rewrite calculateCrc32_tail by (unfold HEADER_SIZE in Hlen; lia).
  split; [apply Z.eqb_eq | apply Z.eqb_neq].
Qed.

(** An instance: the 2 by 2 frame and an expected value that does not
    match. *)
Lemma validateCrc_spec_witness :
  let bytes := encode header_2x2 payload_2x2 in
  HEADER_SIZE <= zlength bytes < 2 ^ 32 + 28 /\
  crc32 0 (skipn 28 bytes) <> 0 /\
  validateCrc bytes 0 = false.
Proof.
  intro bytes.
  assert (H1 : HEADER_SIZE <= zlength bytes < 2 ^ 32 + 28)
    by (vm_compute; split; congruence).
  assert (H2 : crc32 0 (skipn 28 bytes) <> 0) by (vm_compute; congruence).
  split; [exact H1|]. split; [exact H2|].
  apply (proj2 (proj2 (validateCrc_spec bytes 0 H1))). exact H2.
Defined.

(** ** The AI hook *)

(** C10: whatever the frame and the model path, the AI hook throws the
    not-implemented error; it returns no frame, the input frame
    included. *)
Theorem runAiInference_not_implemented (frame : image) (modelPath : string) :
  runAiInference frame modelPath = Throw NotImplementedError /\
  (forall out, runAiInference frame modelPath <> Ok out) /\
  runAiInference frame modelPath <> Ok frame.
Proof.
  unfold runAiInference, NotImplementedError.
  split; [reflexivity|]. split; [intros out H|intro H]; discriminate.
Qed.

(** ** The pipeline monad *)

Lemma cv_bind_ret_r {A} (c : cvM A) : cv_bind c cv_ret = c.
Proof.
  destruct c as [l [a|e|u]]; unfold cv_bind, cv_ret; cbn;
    rewrite ?app_nil_r; reflexivity.
Qed.

Lemma cv_bind_ret_l {A B} (a : A) (k : A -> cvM B) :
  cv_bind (cv_ret a) k = k a.
Proof. unfold cv_bind, cv_ret; cbn. now destruct (k a). Qed.

Lemma cv_bind_assoc {A B C} (c : cvM A) (k : A -> cvM B) (k' : B -> cvM C) :
  cv_bind (cv_bind c k) k' = cv_bind c (fun a => cv_bind (k a) k').
Proof.
  destruct c as [l [a|e|u]]; unfold cv_bind; cbn; try reflexivity.
  destruct (k a) as [l' [b|e|u]]; cbn; try reflexivity.
  now rewrite app_assoc.
Qed.

Lemma cv_bind_Ok {A B} (l : list cv_call) (a : A) (k : A -> cvM B) :
  cv_bind (l, Ok a) k = (l ++ fst (k a), snd (k a)).
Proof. reflexivity. Qed.

Example stub_all_off :
  applyFilters cv_stub uniform_2x2 params_all_off =
  ([call_normalize 0 255; call_convertTo CV_8UC1 f64_one (f64_of_int 0)],
   Ok (mkMat 2 2 [0; 0; 0; 0])).
Proof. vm_compute. reflexivity. Qed.

Example stub_normalize :
  applyFilters cv_stub image_2x2 params_normalize =
  ([call_normalize 0 255; call_normalize 0 255;
    call_convertTo CV_8UC1 f64_one (f64_of_int 0)],
   Ok image_2x2).
Proof. vm_compute. reflexivity. Qed.

Example stub_even_blur :
  applyFilters cv_stub image_2x2 params_even_blur =
  ([call_GaussianBlur (2, 2) (f64_of_int 0)],
   Throw (cv_Exception
     "ksize.width > 0 && ksize.width % 2 == 1 && ksize.height > 0 && ksize.height % 2 == 1")).
Proof. vm_compute. reflexivity. Qed.

Example stub_all_on :
  fst (applyFilters cv_stub image_2x2 params_all_on) =
  flat_map (stage_calls params_all_on) stage_order /\
  is_Ok (snd (applyFilters cv_stub image_2x2 params_all_on)) = true.
Proof. split; vm_compute; reflexivity. Qed.

Lemma cv_bind_ext {A B} (c : cvM A) (k k' : A -> cvM B) :
  (forall a, k a = k' a) -> cv_bind c k = cv_bind c k'.
Proof.
  intro H. destruct c as [l [a|e|u]]; unfold cv_bind; cbn; try reflexivity.
  now rewrite H.
Qed.

(** ** [applyFilters] is its seven gated stages in order *)

Lemma applyFilters_as_stages (cv : OpenCV) (frame : image)
    (p : ProcessingParams) :
  applyFilters cv frame p =
  if empty frame then cv_throw (runtime_error "Empty frame")
  else run_stages cv (gate p) p stage_order (clone frame).
Proof.
  unfold applyFilters. destruct (empty frame); [reflexivity|].
  cbn [run_stages stage_order gate run_stage].
  do 6 (apply cv_bind_ext; intro).
  rewrite (cv_bind_ret_r (cv_bind _ _)).
  apply cv_bind_ext; intro clamped.
  now rewrite cv_bind_ret_r.
Qed.

Lemma run_stages_app (cv : OpenCV) (g : stage -> bool) (p : ProcessingParams)
    (ss1 ss2 : list stage) (m : image) :
  run_stages cv g p (ss1 ++ ss2) m =
  cv_bind (run_stages cv g p ss1 m) (run_stages cv g p ss2).
Proof.
  revert m. induction ss1 as [|s ss1 IH]; intro m; cbn [run_stages app].
  - now rewrite cv_bind_ret_l.
  - rewrite cv_bind_assoc. apply cv_bind_ext. intro a. apply IH.
Qed.

(** ** Shapes *)

Lemma same_shape_refl (a : image) : same_shape a a.
Proof. now repeat split. Qed.

Lemma same_shape_trans (a b c : image) :
  same_shape a b -> same_shape b c -> same_shape a c.
Proof. unfold same_shape. intuition congruence. Qed.

Lemma same_shape_clone (a : image) : same_shape a (clone a).
Proof. now repeat split. Qed.

Lemma same_shape_normalize (src : image) (a b : Z) :
  same_shape src (cv_normalize_minmax src a b).
Proof.
  unfold same_shape, cv_normalize_minmax, zlength; cbn [rows cols data].
  now rewrite length_map.
Qed.

Lemma same_shape_convertTo_8U (src : image) :
  same_shape src (convertTo_8U src).
Proof.
  unfold same_shape, convertTo_8U, zlength; cbn [rows cols data].
  now rewrite length_map.
Qed.

Create HintDb shape.
#[local] Hint Resolve same_shape_refl same_shape_clone same_shape_normalize
  same_shape_convertTo_8U : shape.

Lemma saturate_u8_range (v : Z) : 0 <= saturate_u8 v <= 255.
Proof. unfold saturate_u8. lia. Qed.

Lemma saturate_u8_id (v : Z) : 0 <= v <= 255 -> saturate_u8 v = v.
Proof. unfold saturate_u8. lia. Qed.

Lemma convertTo_8U_range (src : image) :
  Forall (fun v => 0 <= v <= 255) (data (convertTo_8U src)).
Proof.
  unfold convertTo_8U; cbn [data]. apply Forall_forall. intros v Hv.
  apply in_map_iff in Hv. destruct Hv as (x & <- & _).
  apply saturate_u8_range.
Qed.

(** ** One stage *)

Section Stages.

Variable cv : OpenCV.
Hypothesis cv_ok : OpenCV_contract cv.
Variable p : ProcessingParams.

Lemma run_stage_ok (s : stage) (m : image) :
  (s = Blur -> 0 < blurKernelSize p /\ Z.odd (blurKernelSize p) = true) ->
  exists m', run_stage cv p s m = (stage_calls p s, Ok m') /\ same_shape m m'.
Proof.
  intro Hblur. destruct s; cbn [run_stage stage_calls].
  - eexists. split; [reflexivity|]. apply same_shape_normalize.
  - destruct (convertTo_shape cv_ok m (gain p) (f64_of_int 0)) as (d & E & Hs).
    exists d. unfold applyGain, cv_do. now rewrite E.
  - destruct (fastNlMeansDenoising_shape cv_ok m) as (d & E & Hs).
    exists d. unfold applyDenoise, cv_do. now rewrite E.
  - destruct (Hblur eq_refl) as [Hk Ho].
    destruct (GaussianBlur_ksize_shape cv_ok m Hk Ho) as (d & E & Hs).
    exists d. unfold cv_do. now rewrite E.
  - destruct (GaussianBlur_sigma_shape cv_ok m) as (b & Eb & Hb).
    destruct (addWeighted_shape cv_ok (f64_add f64_one (sharpenAmount p))
                (SFopp (sharpenAmount p)) (f64_of_int 0) Hb)
      as (d & Ed & Hd).
    exists d. unfold applySharpen, cv_do.
    rewrite Eb, cv_bind_Ok. cbn [fst snd].
    rewrite Ed, cv_bind_Ok. now split.
  - destruct (convertTo_shape cv_ok m (contrastAlpha p)
                (f64_of_int (contrastBeta p))) as (d & E & Hs).
    exists d. unfold cv_do. now rewrite E.
  - eexists. split; [reflexivity|].
    apply same_shape_trans with (b := cv_normalize_minmax m 0 255);
      auto with shape.
Qed.

Lemma run_stages_ok (g : stage -> bool) (ss : list stage) (m : image) :
  (In Blur ss -> g Blur = true ->
   0 < blurKernelSize p /\ Z.odd (blurKernelSize p) = true) ->
  exists m',
    run_stages cv g p ss m = (flat_map (stage_calls p) (filter g ss), Ok m')
    /\ same_shape m m'.
Proof.
  revert m. induction ss as [|s ss IH]; intros m Hblur.
  - exists m. split; [reflexivity | apply same_shape_refl].
  - cbn [run_stages filter].
    destruct (g s) eqn:Eg.
    + destruct (run_stage_ok (s := s) m) as (m1 & E1 & H1).
      { intros ->. apply Hblur; [now left | exact Eg]. }
      destruct (IH m1) as (m2 & E2 & H2).
      { intros Hin. apply Hblur. now right. }
      exists m2. rewrite E1, cv_bind_Ok, E2. cbn [fst snd flat_map].
      split; [reflexivity | eapply same_shape_trans; eassumption].
    + destruct (IH m) as (m2 & E2 & H2).
      { intros Hin. apply Hblur. now right. }
      exists m2. rewrite cv_bind_ret_l, E2. now split.
Qed.

End Stages.

Lemma blur_kernel_odd_gate (p : ProcessingParams) :
  blur_kernel_odd p ->
  gate p Blur = true ->
  0 < blurKernelSize p /\ Z.odd (blurKernelSize p) = true.
Proof.
  intros Hodd Hg. split; [|now apply Hodd].
  cbn [gate] in Hg. apply andb_true_iff in Hg. now apply Z.ltb_lt.
Qed.

(** ** The stand-in meets the contract *)

Lemma same_shapeb_true (a b : image) : same_shape a b -> same_shapeb a b = true.
Proof.
  intros (Hr & Hc & Hl). unfold same_shapeb.
  now rewrite Hr, Hc, Hl, !Z.eqb_refl.
Qed.

Lemma ksize_accepted_odd (src : image) (k : Z) (sigma : spec_float) :
  0 < k -> Z.odd k = true -> ksize_accepted src (k, k) sigma = true.
Proof.
  intros Hk Ho. unfold ksize_accepted. cbn [fst snd].
  apply orb_true_iff. right.
  destruct (cols src =? 1), (rows src =? 1); cbn [Z.leb Z.compare Z.odd];
    repeat match goal with
           | |- context [k <=? 0] =>
               replace (k <=? 0) with false by (symmetry; apply Z.leb_gt; lia)
           end;
    rewrite ?Ho; reflexivity.
Qed.

Lemma ksize_accepted_sigma (src : image) :
  ksize_accepted src (0, 0) (f64_of_int 3) = true.
Proof.
  unfold ksize_accepted. cbn [fst snd].
  destruct (cols src =? 1), (rows src =? 1); vm_compute; reflexivity.
Qed.

Lemma cv_stub_contract : OpenCV_contract cv_stub.
Proof.
  constructor; cbn [fastNlMeansDenoising GaussianBlur addWeighted convertTo cv_stub].
  - intro src. exists (clone src). split; [reflexivity | apply same_shape_clone].
  - intros src k Hk Ho. exists (clone src).
    rewrite ksize_accepted_odd by assumption.
    split; [reflexivity | apply same_shape_clone].
  - intro src. exists (clone src). rewrite ksize_accepted_sigma.
    split; [reflexivity | apply same_shape_clone].
  - intros src1 alpha src2 beta gamma Hs. exists (clone src1).
    rewrite (same_shapeb_true Hs).
    split; [reflexivity | apply same_shape_clone].
  - intros src alpha beta. exists (clone src).
    split; [reflexivity | apply same_shape_clone].
Qed.

(** ** The claims on the order of the stages *)

Lemma filter_narrow {A} (f g : A -> bool) (l : list A) :
  (forall x, f x = true -> g x = true) ->
  filter f l = filter f (filter g l).
Proof.
  intro H. induction l as [|x l IH]; [reflexivity|].
  cbn [filter]. destruct (f x) eqn:Ef.
  - rewrite (H x Ef). cbn [filter]. rewrite Ef. now f_equal.
  - destruct (g x); [cbn [filter]; rewrite Ef|]; exact IH.
Qed.

Lemma fst_cv_bind {A B} (c : cvM A) (k : A -> cvM B) :
  exists rest, fst (cv_bind c k) = fst c ++ rest.
Proof.
  destruct c as [l [a|e|u]]; unfold cv_bind; cbn [fst snd].
  - now exists (fst (k a)).
  - exists []. now rewrite app_nil_r.
  - exists []. now rewrite app_nil_r.
Qed.

(** The blur stage behind its gate makes its call, however the call
    ends. *)
Lemma fst_run_blur (cv : OpenCV) (g : stage -> bool) (p : ProcessingParams)
    (m : image) :
  fst (run_stages cv g p [Blur] m) =
  flat_map (stage_calls p) (filter g [Blur]).
Proof.
  cbn [run_stages filter]. destruct (g Blur).
  - rewrite cv_bind_ret_r. reflexivity.
  - rewrite cv_bind_ret_l. reflexivity.
Qed.

(** Whatever the kernel, the stages up to the blur are entered by their
    gates: the call of [cv::GaussianBlur] is made as soon as
    [gaussianBlur] is set and [blurKernelSize > 0]. *)
Lemma applyFilters_up_to_blur (cv : OpenCV) (frame : image)
    (p : ProcessingParams) :
  OpenCV_contract cv ->
  empty frame = false ->
  exists rest,
    fst (applyFilters cv frame p) =
    flat_map (stage_calls p)
             (filter (gate p) [Normalize; Gain; Denoise; Blur]) ++ rest.
Proof.
  intros cv_ok Hne. rewrite applyFilters_as_stages, Hne.
  change stage_order
    with ([Normalize; Gain; Denoise]
          ++ [Blur] ++ [Sharpen; Contrast; FinalRescale]).
  change [Normalize; Gain; Denoise; Blur]
    with ([Normalize; Gain; Denoise] ++ [Blur]).
  rewrite run_stages_app, filter_app, flat_map_app.
  destruct (run_stages_ok cv_ok p (gate p) [Normalize; Gain; Denoise]
              (clone frame)) as (m & E & _).
  { intros [H|[H|[H|[]]]]; discriminate H. }
  rewrite E, cv_bind_Ok. cbn [fst]. rewrite run_stages_app.
  destruct (fst_cv_bind (run_stages cv (gate p) p [Blur] m)
              (run_stages cv (gate p) p [Sharpen; Contrast; FinalRescale]))
    as (rest & Er).
  exists rest. now rewrite Er, fst_run_blur, app_assoc.
Qed.

(** C2 (as amended): on a non-empty frame [applyFilters] enters the
    stages in the fixed order normalize, gain, denoise, Gaussian blur,
    sharpen, contrast, final rescale, each by its gate, the gates being
    those of [gate]: the blur is entered when [gaussianBlur] is set and
    [blurKernelSize > 0], odd or not.  With a blur kernel that is odd
    whenever the blur is entered, it makes exactly the OpenCV calls of
    the stages whose gate holds, in that order, and returns.  The
    stages of a configuration that enables fewer stages are run in the
    order they have among the stages of one that enables more. *)
Theorem applyFilters_runs_gated_stages (cv : OpenCV) (frame : image)
    (p : ProcessingParams) :
  OpenCV_contract cv ->
  empty frame = false ->
  (exists rest,
     fst (applyFilters cv frame p) =
     flat_map (stage_calls p)
              (filter (gate p) [Normalize; Gain; Denoise; Blur]) ++ rest) /\
  (blur_kernel_odd p ->
     fst (applyFilters cv frame p) =
       flat_map (stage_calls p) (filter (gate p) stage_order) /\
     is_Ok (snd (applyFilters cv frame p)) = true) /\
  (forall p',
     (forall s, gate p' s = true -> gate p s = true) ->
     filter (gate p') stage_order =
     filter (gate p') (filter (gate p) stage_order)).
Proof.
  intros cv_ok Hne.
  split; [now apply applyFilters_up_to_blur|]. split.
  - intro Hodd. rewrite applyFilters_as_stages, Hne.
    destruct (run_stages_ok cv_ok p (gate p) stage_order (clone frame))
      as (out & E & _).
    { intros _. apply blur_kernel_odd_gate, Hodd. }
    rewrite E. cbn [fst snd is_Ok]. now split.
  - intros p' Hsub. now apply filter_narrow.
Qed.

(** An instance: the stand-in, every stage on, a kernel of extent 5. *)
Lemma applyFilters_runs_gated_stages_witness :
  OpenCV_contract cv_stub /\
  empty image_2x2 = false /\
  blur_kernel_odd params_all_on /\
  fst (applyFilters cv_stub image_2x2 params_all_on) =
    flat_map (stage_calls params_all_on) stage_order.
Proof.
  assert (H1 : empty image_2x2 = false) by reflexivity.
  assert (H2 : blur_kernel_odd params_all_on) by (intros _; reflexivity).
  split; [exact cv_stub_contract|]. split; [exact H1|]. split; [exact H2|].
  exact (proj1 (proj1 (proj2 (@applyFilters_runs_gated_stages cv_stub
                  image_2x2 params_all_on cv_stub_contract H1)) H2)).
Defined.

(** With a kernel of extent 2 the gate of the blur, in the words of
    the specification, is closed, and the final rescale would be the
    only stage; but [applyFilters] calls [cv::GaussianBlur] with that
    extent and makes no other call. *)
Lemma even_kernel_enters_blur :
  claimed_gate params_even_blur Blur = false /\
  fst (applyFilters cv_stub image_2x2 params_even_blur) =
    [call_GaussianBlur (2, 2) (f64_of_int 0)] /\
  fst (applyFilters cv_stub image_2x2 params_even_blur) <>
    flat_map (stage_calls params_even_blur)
             (filter (claimed_gate params_even_blur) stage_order).
Proof.
  split; [reflexivity|]. split; [vm_compute; reflexivity|].
  vm_compute. discriminate.
Qed.

(** ** The final rescale *)

Lemma run_final_rescale (cv : OpenCV) (g : stage -> bool)
    (p : ProcessingParams) (m : image) :
  g FinalRescale = true ->
  run_stages cv g p [FinalRescale] m =
  (stage_calls p FinalRescale,
   Ok (convertTo_8U (cv_normalize_minmax m 0 255))).
Proof. intro Hg. cbn [run_stages]. rewrite Hg. reflexivity. Qed.

(** C5 (as amended): on a non-empty frame, with a blur kernel that is
    odd whenever the blur is entered, [applyFilters] ends with the two
    calls of the final rescale, which no condition guards, and returns
    a matrix with the rows and columns of the input whose samples,
    converted to [CV_8UC1], all lie in [0, 255], whichever of the
    earlier stages ran. *)
Theorem applyFilters_final_rescale (cv : OpenCV) (frame : image)
    (p : ProcessingParams) :
  OpenCV_contract cv ->
  empty frame = false ->
  blur_kernel_odd p ->
  gate p FinalRescale = true /\
  exists before out,
    applyFilters cv frame p =
      (before ++ [call_normalize 0 255;
                  call_convertTo CV_8UC1 f64_one (f64_of_int 0)], Ok out) /\
    rows out = rows frame /\
    cols out = cols frame /\
    zlength (data out) = zlength (data frame) /\
    Forall (fun v => 0 <= v <= 255) (data out).
Proof.
  intros cv_ok Hne Hodd. split; [reflexivity|].
  rewrite applyFilters_as_stages, Hne.
  change stage_order
    with ([Normalize; Gain; Denoise; Blur; Sharpen; Contrast] ++ [FinalRescale]).
  rewrite run_stages_app.
  destruct (run_stages_ok cv_ok p (gate p)
              [Normalize; Gain; Denoise; Blur; Sharpen; Contrast] (clone frame))
    as (m & E & Hm).
  { intros _. apply blur_kernel_odd_gate, Hodd. }
  rewrite E, cv_bind_Ok, run_final_rescale by reflexivity.
  cbn [fst snd stage_calls].
  eexists. eexists. split; [reflexivity|].
  pose proof (same_shape_trans (same_shape_clone frame) Hm) as H1.
  pose proof (same_shape_trans H1 (same_shape_normalize m 0 255)) as H2.
  pose proof (same_shape_trans H2
                (same_shape_convertTo_8U (cv_normalize_minmax m 0 255)))
    as (Hr & Hc & Hl).
  repeat split; try assumption. apply convertTo_8U_range.
Qed.

(** An instance: the stand-in, the uniform frame, every stage off but
    the final rescale. *)
Lemma applyFilters_final_rescale_witness :
  OpenCV_contract cv_stub /\
  empty uniform_2x2 = false /\
  blur_kernel_odd params_all_off /\
  exists before out,
    applyFilters cv_stub uniform_2x2 params_all_off =
      (before ++ [call_normalize 0 255;
                  call_convertTo CV_8UC1 f64_one (f64_of_int 0)], Ok out) /\
    rows out = rows uniform_2x2 /\
    cols out = cols uniform_2x2 /\
    zlength (data out) = zlength (data uniform_2x2) /\
    Forall (fun v => 0 <= v <= 255) (data out).
Proof.
  assert (H1 : empty uniform_2x2 = false) by reflexivity.
  assert (H2 : blur_kernel_odd params_all_off) by (intro H; discriminate H).
  split; [exact cv_stub_contract|]. split; [exact H1|]. split; [exact H2|].
  exact (proj2 (@applyFilters_final_rescale cv_stub uniform_2x2
                  params_all_off cv_stub_contract H1 H2)).
Defined.

(** With a kernel of extent 2 [cv::GaussianBlur] rejects the extent:
    [applyFilters] throws, the final rescale is not reached and no
    matrix is returned. *)
Lemma even_kernel_no_final_rescale :
  empty image_2x2 = false /\
  ~ In (call_normalize 0 255)
       (fst (applyFilters cv_stub image_2x2 params_even_blur)) /\
  ~ (exists out,
       snd (applyFilters cv_stub image_2x2 params_even_blur) = Ok out).
Proof.
  split; [reflexivity|]. rewrite stub_even_blur. cbn [fst snd]. split.
  - intros [H|[]]. discriminate H.
  - intros [out H]. discriminate H.
Qed.

(** ** Normalizing a fully stretched frame *)

Lemma fold_left_min_le (l : list Z) (a : Z) :
  fold_left Z.min l a <= a /\ forall x, In x l -> fold_left Z.min l a <= x.
Proof.
  revert a. induction l as [|y l IH]; intro a; cbn [fold_left].
  - split; [lia | intros x []].
  - destruct (IH (Z.min a y)) as [H1 H2]. split; [lia|].
    intros x [<-|Hx]; [lia | now apply H2].
Qed.

Lemma fold_left_max_ge (l : list Z) (a : Z) :
  a <= fold_left Z.max l a /\ forall x, In x l -> x <= fold_left Z.max l a.
Proof.
  revert a. induction l as [|y l IH]; intro a; cbn [fold_left].
  - split; [lia | intros x []].
  - destruct (IH (Z.max a y)) as [H1 H2]. split; [lia|].
    intros x [<-|Hx]; [lia | now apply H2].
Qed.

Lemma list_min_le (l : list Z) (x : Z) : In x l -> list_min l <= x.
Proof.
  destruct l as [|a l]; [intros []|]. cbn [list_min].
  destruct (fold_left_min_le l a) as [H1 H2].
  intros [<-|Hx]; [exact H1 | now apply H2].
Qed.

Lemma list_max_ge (l : list Z) (x : Z) : In x l -> x <= list_max l.
Proof.
  destruct l as [|a l]; [intros []|]. cbn [list_max].
  destruct (fold_left_max_ge l a) as [H1 H2].
  intros [<-|Hx]; [exact H1 | now apply H2].
Qed.

Lemma round_div_exact (x d : Z) : 0 < d -> round_div (x * d) d = x.
Proof.
  intro Hd. unfold round_div.
  rewrite Z.div_mul, Z.mod_mul by lia.
  destruct (2 * 0 <? d) eqn:E; [reflexivity | apply Z.ltb_ge in E; lia].
Qed.

(** A frame whose samples reach 0 and 255 is left as it is. *)
Lemma cv_normalize_minmax_stretched (m : image) :
  list_min (data m) = 0 -> list_max (data m) = 255 ->
  cv_normalize_minmax m 0 255 = m.
Proof.
  intros Hmin Hmax. destruct m as [r c d]. unfold cv_normalize_minmax.
  cbn [rows cols data] in *. rewrite Hmin, Hmax. f_equal.
  change (0 <? 255 - 0) with true. cbv iota.
  change (Z.max 0 255 - Z.min 0 255) with 255. change (Z.min 0 255) with 0.
  change (255 - 0) with 255.
  rewrite <- (map_id d) at 2. apply map_ext_in. intros x Hx.
  rewrite Z.sub_0_r, round_div_exact, Z.add_0_r by lia.
  apply saturate_u8_id.
  pose proof (list_min_le _ _ Hx). pose proof (list_max_ge _ _ Hx). lia.
Qed.

Lemma convertTo_8U_stretched (m : image) :
  list_min (data m) = 0 -> list_max (data m) = 255 ->
  convertTo_8U m = m.
Proof.
  intros Hmin Hmax. destruct m as [r c d]. unfold convertTo_8U.
  cbn [rows cols data] in *. f_equal.
  rewrite <- (map_id d) at 2. apply map_ext_in. intros x Hx.
  apply saturate_u8_id.
  pose proof (list_min_le _ _ Hx). pose proof (list_max_ge _ _ Hx). lia.
Qed.

Lemma applyFilters_only_normalize (cv : OpenCV) (frame : image)
    (p : ProcessingParams) :
  only_normalize p ->
  empty frame = false ->
  list_min (data frame) = 0 -> list_max (data frame) = 255 ->
  applyFilters cv frame p =
  ([call_normalize 0 255; call_normalize 0 255;
    call_convertTo CV_8UC1 f64_one (f64_of_int 0)], Ok frame).
Proof.
  intros (Hn & Hg & Hd & Hb & Hs & Ha & Hc) Hne Hmin Hmax.
  unfold applyFilters. rewrite Hne, Hn, Hg, Hd, Hb, Hs, Ha, Hc.
  cbn [andb orb negb Z.eqb].
  assert (Hcl : clone frame = frame) by now destruct frame.
  rewrite Hcl. unfold normalizeIntensity, cv_do.
  rewrite cv_normalize_minmax_stretched by assumption.
  rewrite cv_bind_Ok, !cv_bind_ret_l.
  rewrite cv_normalize_minmax_stretched by assumption.
  rewrite cv_bind_Ok. rewrite convertTo_8U_stretched by assumption.
  reflexivity.
Qed.

(** C9: on a non-empty 8-bit frame whose least sample is 0 and whose
    greatest is 255, [applyFilters] with only the normalization enabled
    returns the frame itself; applied to its own result it returns that
    result again, every sample unchanged. *)
Theorem applyFilters_normalize_idempotent (cv : OpenCV) (frame : image)
    (p : ProcessingParams) :
  only_normalize p ->
  empty frame = false ->
  list_min (data frame) = 0 -> list_max (data frame) = 255 ->
  exists once twice,
    snd (applyFilters cv frame p) = Ok once /\
    snd (applyFilters cv once p) = Ok twice /\
    rows twice = rows once /\ cols twice = cols once /\
    Forall2 (fun a b => Z.abs (b - a) <= 0) (data once) (data twice) /\
    twice = once.
Proof.
  intros Hp Hne Hmin Hmax. exists frame, frame.
  rewrite applyFilters_only_normalize by assumption. cbn [snd].
  repeat split.
  clear. induction (data frame) as [|x l IH]; constructor;
    [rewrite Z.sub_diag; reflexivity | exact IH].
Qed.

(** An instance: the 2 by 2 frame with samples 0, 85, 170 and 255. *)
Lemma applyFilters_normalize_idempotent_witness :
  only_normalize params_normalize /\
  empty image_2x2 = false /\
  list_min (data image_2x2) = 0 /\ list_max (data image_2x2) = 255 /\
  exists once twice,
    snd (applyFilters cv_stub image_2x2 params_normalize) = Ok once /\
    snd (applyFilters cv_stub once params_normalize) = Ok twice /\
    rows twice = rows once /\ cols twice = cols once /\
    Forall2 (fun a b => Z.abs (b - a) <= 0) (data once) (data twice) /\
    twice = once.
Proof.
  assert (H0 : only_normalize params_normalize) by (repeat split).
  assert (H1 : empty image_2x2 = false) by reflexivity.
  assert (H2 : list_min (data image_2x2) = 0) by reflexivity.
  assert (H3 : list_max (data image_2x2) = 255) by reflexivity.
  repeat (split; [assumption|]).
  exact (@applyFilters_normalize_idempotent cv_stub image_2x2
           params_normalize H0 H1 H2 H3).
Defined.

(** ** The rescale on a frame that is not stretched *)

(** Samples 10, 20, 30 go to 0, 127.5 and 255; the half goes to the
    even neighbour. *)
Example normalize_rounds_to_even :
  data (cv_normalize_minmax (mkMat 1 3 [10; 20; 30]) 0 255) = [0; 128; 255].
Proof. reflexivity. Qed.

Example normalize_uniform :
  data (cv_normalize_minmax uniform_2x2 0 255) = [0; 0; 0; 0].
Proof. reflexivity. Qed.

(* ================================================================== *)
(** * Part III: further properties of the decoder                      *)
(* ================================================================== *)

Lemma skipn_repeat_sub {A} (x : A) (n m : nat) :
  skipn n (repeat x m) = repeat x (m - n).
Proof.
  revert m. induction n as [|n IH]; intro m.
  - now rewrite Nat.sub_0_r.
  - destruct m as [|m]; [reflexivity|]. cbn [repeat skipn]. apply IH.
Qed.

Lemma extractFrameData_partial (bytes : list byte) (h : UltraHeader) :
  header_in_range h ->
  HEADER_SIZE + getFrameDataSize h <= zlength bytes ->
  getFrameDataSize h <= height h * width h ->
  extractFrameData bytes h =
  Ok (mkMat (height h) (width h) (copied_cells bytes h)).
Proof.
  intros Hr Hlen Hfit.
  pose proof (getFrameDataSize_exact Hr) as Hfs.
  destruct Hr as (_ & Hw & Hh & Hd & Hb & _).
  assert (Hn : 0 <= getFrameDataSize h) by (rewrite Hfs; nia).
  unfold extractFrameData, Mat_create, memcpy, copied_cells.
  cbn [data rows cols]. rewrite zlength_repeat by nia.
  destruct (zlength bytes <? HEADER_SIZE + getFrameDataSize h) eqn:E1;
    [apply Z.ltb_lt in E1; lia|].
  destruct (height h * width h <? getFrameDataSize h) eqn:E2;
    [apply Z.ltb_lt in E2; lia|].
  cbn [obind]. rewrite skipn_repeat_sub, <- Hfs.
  rewrite <- Z2Nat.inj_sub by lia. reflexivity.
Qed.

(** The decoder as a table of its five outcomes, in exact arithmetic. *)
Lemma loadFrameFromBytes_table (bytes : list byte) :
  let h := parseHeader bytes in
  let n := width h * height h * depth h * bytesPerVoxel h in
  loadFrameFromBytes bytes =
  if zlength bytes <? 32 then Throw FormatError
  else if negb (isValid h) then Throw InvalidHeaderError
  else if zlength bytes <? 32 + n then Throw SizeMismatchError
  else if height h * width h <? n then UB WriteOutOfBounds
  else Ok (mkUltraFrame h (mkMat (height h) (width h) (copied_cells bytes h))).
Proof.
  intros h n. subst h n.
  pose proof (parseHeader_in_range bytes) as Hr.
  pose proof (getFrameDataSize_exact Hr) as Hfs.
  unfold loadFrameFromBytes. change HEADER_SIZE with 32 at 1.
  destruct (zlength bytes <? 32) eqn:E0; [reflexivity|].
  destruct (isValid (parseHeader bytes)) eqn:Ev; cbn [negb]; [|reflexivity].
  rewrite (expectedSize_exact Hr).
  destruct (zlength bytes <? 32 + _) eqn:E2; [reflexivity|].
  apply Z.ltb_ge in E2. cbv zeta.
  destruct (height (parseHeader bytes) * width (parseHeader bytes) <? _) eqn:E3.
  - apply Z.ltb_lt in E3.
    rewrite extractFrameData_overflow; [reflexivity | | |].
    + apply header_in_range_parse_bounds.
    + rewrite Hfs. unfold HEADER_SIZE. lia.
    + rewrite Hfs. lia.
  - apply Z.ltb_ge in E3.
    rewrite extractFrameData_partial; [reflexivity | assumption | |].
    + rewrite Hfs. unfold HEADER_SIZE. lia.
    + rewrite Hfs. lia.
Qed.

Ltac decode_cases bytes :=
  rewrite (loadFrameFromBytes_table bytes); cbv zeta;
  destruct (zlength bytes <? 32) eqn:?E0;
  [|destruct (isValid (parseHeader bytes)) eqn:?Ev; cbn [negb];
    [destruct (zlength bytes <? 32 + _) eqn:?E2;
     [|destruct (_ * _ <? _) eqn:?E3]|]].

(** X1: the decoder fails with the too-small error exactly on the
    inputs of fewer than 32 bytes, whatever they hold. *)
Theorem loadFrameFromBytes_FormatError (bytes : list byte) :
  loadFrameFromBytes bytes = Throw FormatError <-> zlength bytes < 32.
Proof.
  decode_cases bytes; rewrite <- ?Z.ltb_lt, ?E0;
    split; intro H; try reflexivity; discriminate H.
Qed.



(** X3: the decoder returns a frame exactly when the input has 32
    bytes, a valid header, all the announced payload, and announces at
    most one byte per pixel ([depth * bytesPerVoxel <= 1]). *)
Theorem loadFrameFromBytes_Ok_iff (bytes : list byte) :
  let h := parseHeader bytes in
  (exists f, loadFrameFromBytes bytes = Ok f) <->
  32 <= zlength bytes /\
  isValid h = true /\
  32 + width h * height h * depth h * bytesPerVoxel h <= zlength bytes /\
  depth h * bytesPerVoxel h <= 1.
Proof.
  intro h. subst h.
  destruct (parseHeader_in_range bytes) as (_ & Hw & Hh & Hd & Hb & _).
  decode_cases bytes;
    rewrite ?Z.ltb_lt, ?Z.ltb_ge in *.
  - split; [intros [f H]; discriminate H | lia].
  - split; [intros [f H]; discriminate H | lia].
  - assert (Hwh : 0 < width (parseHeader bytes) /\ 0 < height (parseHeader bytes)).
    { unfold isValid in Ev. rewrite !andb_true_iff, !Z.ltb_lt in Ev. tauto. }
    split; [intros [f H]; discriminate H|].
    intros (_ & _ & _ & H). exfalso.
    rewrite <- Z.mul_assoc in E3. nia.
  - assert (Hwh : 0 < width (parseHeader bytes) /\ 0 < height (parseHeader bytes)).
    { unfold isValid in Ev. rewrite !andb_true_iff, !Z.ltb_lt in Ev. tauto. }
    split; [intros _ | intros _; eexists; reflexivity].
    repeat split; try lia.
    rewrite <- Z.mul_assoc in E3. nia.
  - split; [intros [f H]; discriminate H|]. intros (_ & H & _). discriminate H.
Qed.

(** An instance: the encoded 2 by 2 frame. *)
Lemma loadFrameFromBytes_Ok_iff_witness :
  let bytes := encode header_2x2 payload_2x2 in
  (exists f, loadFrameFromBytes bytes = Ok f) /\
  depth (parseHeader bytes) * bytesPerVoxel (parseHeader bytes) <= 1.
Proof.
  intro bytes.
  assert (H : exists f, loadFrameFromBytes bytes = Ok f)
    by (eexists; vm_compute; reflexivity).
  split; [exact H|].
  exact (proj2 (proj2 (proj2 (proj1 (loadFrameFromBytes_Ok_iff bytes) H)))).
Defined.

Lemma zlength_app {A} (l1 l2 : list A) :
  zlength (l1 ++ l2) = zlength l1 + zlength l2.
Proof. unfold zlength. rewrite length_app. lia. Qed.

Lemma zlength_nonneg {A} (l : list A) : 0 <= zlength l.
Proof. unfold zlength. lia. Qed.

Lemma firstn_skipn_app {A} (l extra : list A) (off n : nat) :
  (off + n <= List.length l)%nat ->
  firstn n (skipn off (l ++ extra)) = firstn n (skipn off l).
Proof.
  intro H. rewrite skipn_app, firstn_app, length_skipn.
  replace (n - (List.length l - off))%nat with 0%nat by lia.
  cbn [firstn]. now rewrite app_nil_r.
Qed.

Lemma parseHeader_app (bytes extra : list byte) :
  32 <= zlength bytes -> parseHeader (bytes ++ extra) = parseHeader bytes.
Proof.
  unfold zlength. intro H. unfold parseHeader, read_le.
  rewrite !firstn_skipn_app by lia. reflexivity.
Qed.

Lemma copied_cells_app (bytes extra : list byte) (h : UltraHeader) :
  0 <= width h * height h * depth h * bytesPerVoxel h ->
  32 + width h * height h * depth h * bytesPerVoxel h <= zlength bytes ->
  copied_cells (bytes ++ extra) h = copied_cells bytes h.
Proof.
  unfold zlength. intros H0 H. unfold copied_cells. cbv zeta.
  rewrite firstn_skipn_app by lia. reflexivity.
Qed.

Lemma zlength_copied_cells (bytes : list byte) (h : UltraHeader) :
  0 <= width h * height h * depth h * bytesPerVoxel h <= height h * width h ->
  32 + width h * height h * depth h * bytesPerVoxel h <= zlength bytes ->
  zlength (copied_cells bytes h) = height h * width h.
Proof.
  unfold zlength. intros H0 H. unfold copied_cells. cbv zeta.
  rewrite length_app, length_map, length_firstn, length_skipn, repeat_length.
  lia.
Qed.

(** X4: a frame that the decoder returns carries the parsed header and
    a matrix of [height] rows and [width] columns with as many cells,
    and [UltraFrame::isValid] holds of it. *)
Theorem loadFrameFromBytes_returns_valid (bytes : list byte) (f : UltraFrame) :
  loadFrameFromBytes bytes = Ok f ->
  header f = parseHeader bytes /\
  rows (frame f) = height (header f) /\
  cols (frame f) = width (header f) /\
  zlength (data (frame f)) = rows (frame f) * cols (frame f) /\
  UltraFrame_isValid f = true.
Proof.
  destruct (parseHeader_in_range bytes) as (_ & Hw & Hh & Hd & Hb & _).
  decode_cases bytes; intro H; try discriminate H.
  injection H as <-. cbn [header frame rows cols data].
  apply Z.ltb_ge in E2, E3.
  assert (Hwh : 0 < width (parseHeader bytes) /\ 0 < height (parseHeader bytes)).
  { unfold isValid in Ev. rewrite !andb_true_iff, !Z.ltb_lt in Ev. tauto. }
  assert (Hl : zlength (copied_cells bytes (parseHeader bytes))
               = height (parseHeader bytes) * width (parseHeader bytes)).
  { apply zlength_copied_cells; [split; [nia | lia] | lia]. }
  assert (Hnz : (height (parseHeader bytes) * width (parseHeader bytes) =? 0)
                = false) by (apply Z.eqb_neq; nia).
  split; [reflexivity|]. split; [reflexivity|]. split; [reflexivity|].
  split; [exact Hl|].
  unfold UltraFrame_isValid, Mat_empty.
  change (header (mkUltraFrame ?h ?m)) with h.
  change (frame (mkUltraFrame ?h ?m)) with m.
  change (data (mkMat ?r ?c ?d)) with d.
  change (rows (mkMat ?r ?c ?d)) with r.
  change (cols (mkMat ?r ?c ?d)) with c.
  change (read_le bytes 6 2 * read_le bytes 4 2)
    with (height (parseHeader bytes) * width (parseHeader bytes)).
  now rewrite Ev, Hl, Hnz.
Qed.

(** An instance: the encoded 2 by 2 frame. *)
Lemma loadFrameFromBytes_returns_valid_witness :
  let f := mkUltraFrame header_2x2 (mkMat 2 2 (map Some payload_2x2)) in
  loadFrameFromBytes (encode header_2x2 payload_2x2) = Ok f /\
  UltraFrame_isValid f = true.
Proof.
  intro f.
  assert (H : loadFrameFromBytes (encode header_2x2 payload_2x2) = Ok f)
    by (vm_compute; reflexivity).
  split; [exact H|].
  exact (proj2 (proj2 (proj2 (proj2
    (loadFrameFromBytes_returns_valid (encode header_2x2 payload_2x2) H))))).
Defined.

(** X5: bytes that follow the announced payload are ignored: appended
    to an input of at least 32 bytes that is not rejected for its
    size, they leave the outcome of the decoder as it is. *)
Theorem loadFrameFromBytes_trailing_bytes (bytes extra : list byte) :
  32 <= zlength bytes ->
  loadFrameFromBytes bytes <> Throw SizeMismatchError ->
  loadFrameFromBytes (bytes ++ extra) = loadFrameFromBytes bytes.
Proof.
  intros Hlen Hsz.
  destruct (parseHeader_in_range bytes) as (_ & Hw & Hh & Hd & Hb & _).
  pose proof (zlength_nonneg extra) as Hex.
  rewrite (loadFrameFromBytes_table (bytes ++ extra)). cbv zeta.
  rewrite parseHeader_app, zlength_app by assumption.
  revert Hsz. decode_cases bytes; intro Hsz;
    rewrite ?Z.ltb_lt, ?Z.ltb_ge in *; try lia.
  - now contradiction Hsz.
  - destruct (_ <? 32) eqn:F0; [apply Z.ltb_lt in F0; lia|].
    destruct (_ <? 32 + _) eqn:F2; [apply Z.ltb_lt in F2; lia|].
    reflexivity.
  - destruct (_ <? 32) eqn:F0; [apply Z.ltb_lt in F0; lia|].
    destruct (_ <? 32 + _) eqn:F2; [apply Z.ltb_lt in F2; lia|].
    rewrite copied_cells_app; [reflexivity | nia | lia].
  - destruct (_ <? 32) eqn:F0; [apply Z.ltb_lt in F0; lia|]. reflexivity.
Qed.

(** An instance: the encoded 2 by 2 frame followed by three bytes. *)
Lemma loadFrameFromBytes_trailing_bytes_witness :
  let bytes := encode header_2x2 payload_2x2 in
  32 <= zlength bytes /\
  loadFrameFromBytes bytes <> Throw SizeMismatchError /\
  loadFrameFromBytes (bytes ++ [x01; x02; x03]) = loadFrameFromBytes bytes.
Proof.
  intro bytes.
  assert (H1 : 32 <= zlength bytes) by (vm_compute; congruence).
  assert (H2 : loadFrameFromBytes bytes <> Throw SizeMismatchError)
    by (vm_compute; congruence).
  split; [exact H1|]. split; [exact H2|].
  exact (loadFrameFromBytes_trailing_bytes bytes [x01; x02; x03] H1 H2).
Defined.

Lemma read_le_firstn (bytes : list byte) (k off n : nat) :
  (off + n <= k)%nat ->
  read_le (firstn k bytes) off n = read_le bytes off n.
Proof.
  intro H. unfold read_le.
  rewrite skipn_firstn_comm, firstn_firstn.
  now replace (Nat.min n (k - off)) with n by lia.
Qed.

Lemma copied_cells_ext (bytes bytes' : list byte) (h h' : UltraHeader) :
  width h' = width h -> height h' = height h -> depth h' = depth h ->
  bytesPerVoxel h' = bytesPerVoxel h ->
  skipn 32 bytes' = skipn 32 bytes ->
  copied_cells bytes' h' = copied_cells bytes h.
Proof.
  intros Hw Hh Hd Hb Hs. unfold copied_cells.
  now rewrite Hw, Hh, Hd, Hb, Hs.
Qed.

(** X6: the bytes at offsets 12 to 31 (frame number, timestamp,
    reserved word, checksum) have no part in the acceptance of an input
    or in the pixels returned: two inputs of one length that agree on
    their first 12 bytes and from offset 32 on end alike and give the
    same matrix. *)
Theorem loadFrameFromBytes_metadata_inert (bytes bytes' : list byte) :
  zlength bytes' = zlength bytes ->
  firstn 12 bytes' = firstn 12 bytes ->
  skipn 32 bytes' = skipn 32 bytes ->
  omap frame (loadFrameFromBytes bytes') = omap frame (loadFrameFromBytes bytes).
Proof.
  intros Hlen H12 H32.
  assert (Hf : forall off n, (off + n <= 12)%nat ->
                 read_le bytes' off n = read_le bytes off n).
  { intros off n H. rewrite <- (@read_le_firstn bytes' 12 off n H), H12.
    now apply read_le_firstn. }
  assert (Hm : magicId (parseHeader bytes') = magicId (parseHeader bytes))
    by (apply Hf; lia).
  assert (Hw : width (parseHeader bytes') = width (parseHeader bytes))
    by (apply Hf; lia).
  assert (Hh : height (parseHeader bytes') = height (parseHeader bytes))
    by (apply Hf; lia).
  assert (Hd : depth (parseHeader bytes') = depth (parseHeader bytes))
    by (apply Hf; lia).
  assert (Hb : bytesPerVoxel (parseHeader bytes')
               = bytesPerVoxel (parseHeader bytes)) by (apply Hf; lia).
  assert (Hv : isValid (parseHeader bytes') = isValid (parseHeader bytes)).
  { unfold isValid. now rewrite Hm, Hw, Hh, Hb. }
  rewrite (loadFrameFromBytes_table bytes'), (loadFrameFromBytes_table bytes).
  cbv zeta. rewrite Hlen, Hv, Hw, Hh, Hd, Hb.
  destruct (zlength bytes <? 32); [reflexivity|].
  destruct (isValid (parseHeader bytes)); cbn [negb]; [|reflexivity].
  destruct (zlength bytes <? 32 + _); [reflexivity|].
  destruct (_ * _ <? _); [reflexivity|].
  cbn [omap frame]. f_equal. f_equal.
  now apply copied_cells_ext.
Qed.

(** An instance: the 2 by 2 frame under two checksum fields. *)
Lemma loadFrameFromBytes_metadata_inert_witness :
  let bytes := encode header_2x2 payload_2x2 in
  let bytes' := encode header_2x2_crc payload_2x2 in
  zlength bytes' = zlength bytes /\
  firstn 12 bytes' = firstn 12 bytes /\
  skipn 32 bytes' = skipn 32 bytes /\
  bytes' <> bytes /\
  omap frame (loadFrameFromBytes bytes') = omap frame (loadFrameFromBytes bytes).
Proof.
  intros bytes bytes'.
  assert (H1 : zlength bytes' = zlength bytes) by reflexivity.
  assert (H2 : firstn 12 bytes' = firstn 12 bytes) by reflexivity.
  assert (H3 : skipn 32 bytes' = skipn 32 bytes) by reflexivity.
  repeat (split; [assumption|]).
  split; [vm_compute; discriminate|].
  exact (loadFrameFromBytes_metadata_inert bytes bytes' H1 H2 H3).
Defined.

(** ** The header and its 32 bytes *)

Lemma byte_of_Z_val (b : byte) (x : Z) : byte_of_Z (byte_val b + 256 * x) = b.
Proof.
  unfold byte_of_Z.
  replace ((byte_val b + 256 * x) mod 256) with (byte_val b).
  - unfold byte_val. rewrite N2Z.id. now rewrite Byte.of_to_N.
  - pose proof (byte_val_range b).
    rewrite (Z.mul_comm 256 x), Z.mod_add by lia.
    symmetry. now apply Z.mod_small.
Qed.

Lemma le_bytes_le_uint (l : list byte) :
  le_bytes (List.length l) (le_uint l) = l.
Proof.
  induction l as [|b l IH]; [reflexivity|].
  cbn [List.length le_bytes le_uint]. rewrite byte_of_Z_val. f_equal.
  pose proof (byte_val_range b).
  replace ((byte_val b + 256 * le_uint l) / 256) with (le_uint l); [exact IH|].
  rewrite (Z.mul_comm 256), Z.div_add by lia.
  rewrite (Z.div_small (byte_val b)) by lia. lia.
Qed.

(** X7: [parseHeader] and the 32-byte little-endian layout are inverse
    to each other: parsing the encoding of a header gives the header
    back, whatever follows the 32 bytes, and encoding the header parsed
    from an input of at least 32 bytes gives its first 32 bytes back. *)
Theorem parseHeader_encodeHeader_inverse :
  (forall h rest, header_in_range h -> parseHeader (encodeHeader h ++ rest) = h) /\
  (forall bytes, 32 <= zlength bytes ->
     encodeHeader (parseHeader bytes) = firstn 32 bytes).
Proof.
  split.
  - intros h rest Hr. now apply parseHeader_encode.
  - intros bytes Hlen. unfold zlength in Hlen.
    do 32 (destruct bytes as [|? bytes]; [cbn [List.length] in Hlen; lia|]).
    clear Hlen. unfold encodeHeader, parseHeader, read_le.
    cbn [magicId width height depth bytesPerVoxel frameNumber timestamp
         reserved crc skipn firstn].
    repeat match goal with
           | |- context [le_bytes ?n (le_uint ?l)] =>
               change (le_bytes n (le_uint l))
                 with (le_bytes (List.length l) (le_uint l));
               rewrite (le_bytes_le_uint l)
           end.
    reflexivity.
Qed.

(** An instance: the header of the 2 by 2 frame and its encoding. *)
Lemma parseHeader_encodeHeader_inverse_witness :
  header_in_range header_2x2 /\
  32 <= zlength (encode header_2x2 payload_2x2) /\
  parseHeader (encodeHeader header_2x2 ++ payload_2x2) = header_2x2 /\
  encodeHeader (parseHeader (encode header_2x2 payload_2x2)) =
    firstn 32 (encode header_2x2 payload_2x2).
Proof.
  assert (H1 : header_in_range header_2x2)
    by (vm_compute; repeat split; congruence).
  assert (H2 : 32 <= zlength (encode header_2x2 payload_2x2))
    by (vm_compute; congruence).
  split; [exact H1|]. split; [exact H2|]. split.
  - exact (proj1 parseHeader_encodeHeader_inverse header_2x2 payload_2x2 H1).
  - exact (proj2 parseHeader_encodeHeader_inverse _ H2).
Defined.

Lemma copied_cells_full (bytes : list byte) (h : UltraHeader) :
  depth h = 1 -> bytesPerVoxel h = 1 ->
  copied_cells bytes h =
  map Some (firstn (Z.to_nat (width h * height h)) (skipn 32 bytes)).
Proof.
  intros Hd Hb. unfold copied_cells. rewrite Hd, Hb, !Z.mul_1_r.
  replace (height h * width h - width h * height h) with 0 by lia.
  cbn [Z.to_nat repeat]. now rewrite app_nil_r.
Qed.

(** X8: the round trip on the format as it is used.  For a valid
    header with one plane and one byte per sample, a payload of [width
    * height] bytes and any bytes after it, the decoder returns the
    header, field for field, and a [height] by [width] matrix whose
    cells hold the payload. *)
Theorem decode_encode_roundtrip (h : UltraHeader) (payload extra : list byte) :
  header_in_range h ->
  isValid h = true ->
  depth h = 1 -> bytesPerVoxel h = 1 ->
  zlength payload = width h * height h ->
  loadFrameFromBytes (encode h payload ++ extra) =
  Ok (mkUltraFrame h (mkMat (height h) (width h) (map Some payload))).
Proof.
  intros Hr Hv Hd Hb Hp.
  pose proof (zlength_nonneg extra) as Hex.
  assert (Hwh : 0 < width h /\ 0 < height h).
  { unfold isValid in Hv. rewrite !andb_true_iff, !Z.ltb_lt in Hv. tauto. }
  assert (Eb : encode h payload ++ extra = encode h (payload ++ extra))
    by (unfold encode; now rewrite app_assoc).
  rewrite Eb, loadFrameFromBytes_table. cbv zeta.
  rewrite (@parseHeader_encode h (payload ++ extra) Hr).
  rewrite zlength_encode, zlength_app, Hv, Hd, Hb, !Z.mul_1_r. cbn [negb].
  destruct (_ <? 32) eqn:E0; [apply Z.ltb_lt in E0; lia|].
  destruct (_ <? 32 + _) eqn:E2; [apply Z.ltb_lt in E2; lia|].
  destruct (_ * _ <? _) eqn:E3; [apply Z.ltb_lt in E3; lia|].
  rewrite copied_cells_full, skipn_encode by assumption.
  rewrite <- Hp. unfold zlength. rewrite Nat2Z.id.
  rewrite firstn_app, firstn_all, Nat.sub_diag. cbn [firstn].
  now rewrite app_nil_r.
Qed.

(** An instance: the 2 by 2 frame followed by two bytes. *)
Lemma decode_encode_roundtrip_witness :
  header_in_range header_2x2 /\
  isValid header_2x2 = true /\
  depth header_2x2 = 1 /\ bytesPerVoxel header_2x2 = 1 /\
  zlength payload_2x2 = width header_2x2 * height header_2x2 /\
  loadFrameFromBytes (encode header_2x2 payload_2x2 ++ [xff; xfe]) =
  Ok (mkUltraFrame header_2x2 (mkMat 2 2 (map Some payload_2x2))).
Proof.
  assert (H1 : header_in_range header_2x2)
    by (vm_compute; repeat split; congruence).
  assert (H2 : isValid header_2x2 = true) by reflexivity.
  assert (H3 : depth header_2x2 = 1) by reflexivity.
  assert (H4 : bytesPerVoxel header_2x2 = 1) by reflexivity.
  assert (H5 : zlength payload_2x2 = width header_2x2 * height header_2x2)
    by reflexivity.
  repeat (split; [assumption|]).
  exact (@decode_encode_roundtrip header_2x2 payload_2x2 [xff; xfe]
           H1 H2 H3 H4 H5).
Defined.

(** X9: on a header read from bytes the [size_t] arithmetic of the
    decoder never wraps: [getFrameDataSize] is the product of the four
    fields and the expected size is that product plus 32, below
    [2 ^ 64]. *)
Theorem frame_size_never_wraps (bytes : list byte) :
  let h := parseHeader bytes in
  getFrameDataSize h = width h * height h * depth h * bytesPerVoxel h /\
  wrap_size_t (HEADER_SIZE + getFrameDataSize h) = 32 + getFrameDataSize h /\
  0 <= getFrameDataSize h /\
  32 + getFrameDataSize h < 2 ^ 64.
Proof.
  intro h. subst h. pose proof (parseHeader_in_range bytes) as Hr.
  pose proof (getFrameDataSize_exact Hr) as Hfs.
  pose proof (expectedSize_exact Hr) as Hex.
  destruct Hr as (_ & Hw & Hh & Hd & Hb & _).
  rewrite Hex, Hfs. split; [reflexivity|]. split; [reflexivity|].
  set (w := width (parseHeader bytes)) in *.
  set (hh := height (parseHeader bytes)) in *.
  set (d := depth (parseHeader bytes)) in *.
  set (b := bytesPerVoxel (parseHeader bytes)) in *.
  assert (H1 : 0 <= w * hh <= 65535 * 65535) by nia.
  assert (H2 : 0 <= w * hh * d <= 65535 * 65535 * 65535) by nia.
  assert (H3 : 0 <= w * hh * d * b <= 65535 * 65535 * 65535 * 65535) by nia.
  lia.
Qed.

(** X10: the checksum comparison is blind to the first 28 bytes: two
    buffers of one length that agree from offset 28 on get the same
    answer from [validateCrc], for every expected value and for the
    value stored in their own checksum field. *)
Theorem validateCrc_covers_from_28 (bytes bytes' : list byte) :
  zlength bytes' = zlength bytes ->
  skipn 28 bytes' = skipn 28 bytes ->
  (forall expectedCrc,
     validateCrc bytes' expectedCrc = validateCrc bytes expectedCrc) /\
  crc (parseHeader bytes') = crc (parseHeader bytes) /\
  validateCrc bytes' (crc (parseHeader bytes')) =
  validateCrc bytes (crc (parseHeader bytes)).
Proof.
  intros Hlen Hs.
  assert (H1 : forall e, validateCrc bytes' e = validateCrc bytes e).
  { intro e. unfold validateCrc. now rewrite Hlen, Hs. }
  assert (H2 : crc (parseHeader bytes') = crc (parseHeader bytes)).
  { unfold parseHeader, read_le; cbn [crc]. now rewrite Hs. }
  split; [exact H1|]. split; [exact H2|]. now rewrite H2, H1.
Qed.

(** An instance: the 2 by 2 frame and the same frame with a magic of
    0. *)
Lemma validateCrc_covers_from_28_witness :
  let bytes := encode header_2x2 payload_2x2 in
  let bytes' := encode (mkUltraHeader 0 2 2 1 1 7 1000 0 0) payload_2x2 in
  zlength bytes' = zlength bytes /\
  skipn 28 bytes' = skipn 28 bytes /\
  bytes' <> bytes /\
  validateCrc bytes' 7 = validateCrc bytes 7.
Proof.
  intros bytes bytes'.
  assert (H1 : zlength bytes' = zlength bytes) by reflexivity.
  assert (H2 : skipn 28 bytes' = skipn 28 bytes) by reflexivity.
  split; [exact H1|]. split; [exact H2|].
  split; [vm_compute; discriminate|].
  exact (proj1 (validateCrc_covers_from_28 bytes bytes' H1 H2) 7).
Defined.

(** X19: a matrix that the decoder returns is written in full or not
    at all.  Either the header announces one plane of one byte per
    sample and the cells hold the [width * height] bytes that follow
    the header, or it announces no plane ([depth = 0]) and every cell
    is left as allocated, whatever follows the header. *)
Theorem loadFrameFromBytes_cells (bytes : list byte) (f : UltraFrame) :
  loadFrameFromBytes bytes = Ok f ->
  let h := parseHeader bytes in
  (depth h = 1 /\ bytesPerVoxel h = 1 /\
   data (frame f) =
     map Some (firstn (Z.to_nat (width h * height h)) (skipn 32 bytes))) \/
  (depth h = 0 /\
   data (frame f) = repeat None (Z.to_nat (height h * width h))).
Proof.
  intros Hf h. subst h.
  destruct (parseHeader_in_range bytes) as (_ & Hw & Hh & Hd & Hb & _).
  revert Hf. decode_cases bytes; intro Hf; try discriminate Hf.
  injection Hf as <-. cbn [frame data].
  assert (Hv : 0 < width (parseHeader bytes) /\ 0 < height (parseHeader bytes)
               /\ 0 < bytesPerVoxel (parseHeader bytes)).
  { unfold isValid in Ev. rewrite !andb_true_iff, !Z.ltb_lt in Ev. tauto. }
  apply Z.ltb_ge in E3. rewrite <- Z.mul_assoc in E3.
  assert (Hdb : depth (parseHeader bytes) * bytesPerVoxel (parseHeader bytes)
                <= 1) by nia.
  destruct (Z.eq_dec (depth (parseHeader bytes)) 0) as [Hz|Hnz].
  - right. split; [exact Hz|]. unfold copied_cells.
    rewrite Hz, Z.mul_0_r, Z.mul_0_l, Z.sub_0_r. reflexivity.
  - left. assert (Hd1 : depth (parseHeader bytes) = 1) by nia.
    assert (Hb1 : bytesPerVoxel (parseHeader bytes) = 1) by nia.
    split; [exact Hd1|]. split; [exact Hb1|].
    now apply copied_cells_full.
Qed.

(** An instance: a header that announces no plane, followed by four
    bytes. *)
Lemma loadFrameFromBytes_cells_witness :
  let bytes := encode header_no_plane [x01; x02; x03; x04] in
  loadFrameFromBytes bytes =
    Ok (mkUltraFrame header_no_plane (mkMat 1 1 [None])) /\
  depth (parseHeader bytes) = 0.
Proof.
  intro bytes.
  assert (Hf : loadFrameFromBytes bytes =
               Ok (mkUltraFrame header_no_plane (mkMat 1 1 [None])))
    by (vm_compute; reflexivity).
  split; [exact Hf|].
  destruct (loadFrameFromBytes_cells bytes Hf) as [(Hd & _ & E)|(Hd & _)].
  - vm_compute in E. discriminate E.
  - exact Hd.
Defined.

(* ================================================================== *)
(** * Part IV: further properties of the pipeline                      *)
(* ================================================================== *)

(** The calls of a stage that were made are the first calls of the
    stage, and there is at least one. *)
Lemma run_stage_calls (cv : OpenCV) (p : ProcessingParams) (s : stage)
    (m : image) :
  fst (run_stage cv p s m) <> [] /\
  exists rest, stage_calls p s = fst (run_stage cv p s m) ++ rest.
Proof.
  destruct s; cbn [run_stage stage_calls];
    unfold normalizeIntensity, applyGain, applyDenoise, applySharpen, cv_do;
    try (split; [discriminate | now exists []]).
  - destruct (GaussianBlur cv m (0, 0) (f64_of_int 3)) as [b|e|u].
    + rewrite cv_bind_Ok. cbn [fst].
      destruct (addWeighted cv m _ b _ _) as [d|e|u];
        (split; [discriminate | now exists []]).
    + unfold cv_bind; cbn [fst snd]. split; [discriminate|]. eexists. reflexivity.
    + unfold cv_bind; cbn [fst snd]. split; [discriminate|]. eexists. reflexivity.
Qed.

Lemma fst_cv_bind_nil {A B} (c : cvM A) (k : A -> cvM B) :
  fst (cv_bind c k) = [] -> fst c = [].
Proof.
  destruct (fst_cv_bind c k) as (rest & E). rewrite E.
  intro H. now apply app_eq_nil in H.
Qed.

(** A pipeline that made no call has returned. *)
Lemma run_stages_silent (cv : OpenCV) (g : stage -> bool)
    (p : ProcessingParams) (ss : list stage) (m : image) :
  fst (run_stages cv g p ss m) = [] ->
  run_stages cv g p ss m = ([], Ok m) /\ forall s, In s ss -> g s = false.
Proof.
  revert m. induction ss as [|s ss IH]; intros m H; cbn [run_stages] in *.
  - split; [reflexivity | intros s []].
  - destruct (g s) eqn:Eg.
    + apply fst_cv_bind_nil in H.
      now destruct (run_stage_calls cv p s m) as [Hne _].
    + rewrite cv_bind_ret_l in *. destruct (IH m H) as [E Hall].
      split; [exact E|]. intros s' [<-|Hin]; [exact Eg | now apply Hall].
Qed.

(** X11: [applyFilters] fails with the empty-frame error, before any
    call to OpenCV, exactly when the frame is empty; on a frame that is
    not empty at least one OpenCV call is made. *)
Theorem applyFilters_EmptyFrameError (cv : OpenCV) (frame : image)
    (p : ProcessingParams) :
  (applyFilters cv frame p = ([], Throw EmptyFrameError) <->
   empty frame = true) /\
  (empty frame = false -> fst (applyFilters cv frame p) <> []).
Proof.
  assert (Hne : empty frame = false -> fst (applyFilters cv frame p) <> []).
  { intros He Hnil. rewrite applyFilters_as_stages, He in Hnil.
    destruct (run_stages_silent _ _ _ _ _ Hnil) as [_ Hall].
    specialize (Hall FinalRescale). cbn in Hall.
    assert (true = false) by (apply Hall; tauto). discriminate. }
  split; [|exact Hne]. split.
  - intro H. destruct (empty frame) eqn:He; [reflexivity|].
    exfalso. apply (Hne eq_refl). now rewrite H.
  - intro He. unfold applyFilters. now rewrite He.
Qed.

(** An instance: a matrix of no rows under the default parameters, and
    the uniform frame. *)
Lemma applyFilters_EmptyFrameError_witness :
  empty (mkMat 0 4 []) = true /\
  applyFilters cv_stub (mkMat 0 4 []) default_params =
    ([], Throw EmptyFrameError) /\
  empty uniform_2x2 = false /\
  fst (applyFilters cv_stub uniform_2x2 default_params) <> [].
Proof.
  assert (H1 : empty (mkMat 0 4 []) = true) by reflexivity.
  assert (H2 : empty uniform_2x2 = false) by reflexivity.
  split; [exact H1|]. split.
  - exact (proj2 (proj1 (applyFilters_EmptyFrameError cv_stub (mkMat 0 4 [])
                           default_params)) H1).
  - split; [exact H2|].
    exact (proj2 (applyFilters_EmptyFrameError cv_stub uniform_2x2
                    default_params) H2).
Defined.

Lemma run_stages_calls_in (cv : OpenCV) (g : stage -> bool)
    (p : ProcessingParams) (ss : list stage) (m : image) (c : cv_call) :
  In c (fst (run_stages cv g p ss m)) ->
  exists s, In s ss /\ g s = true /\ In c (stage_calls p s).
Proof.
  revert m. induction ss as [|s ss IH]; intros m H; cbn [run_stages] in H.
  - destruct H.
  - destruct (g s) eqn:Eg.
    + destruct (run_stage_calls cv p s m) as [_ (rest & Es)].
      unfold cv_bind in H.
      destruct (snd (run_stage cv p s m)) as [m'|e|u]; cbn [fst] in H.
      * apply in_app_or in H. destruct H as [H|H].
        -- exists s. repeat split; [now left | exact Eg |].
           rewrite Es. apply in_or_app. now left.
        -- destruct (IH _ H) as (s' & Hin & Hg & Hc).
           exists s'. repeat split; [now right | exact Hg | exact Hc].
      * exists s. repeat split; [now left | exact Eg |].
        rewrite Es. apply in_or_app. now left.
      * exists s. repeat split; [now left | exact Eg |].
        rewrite Es. apply in_or_app. now left.
    + rewrite cv_bind_ret_l in H.
      destruct (IH _ H) as (s' & Hin & Hg & Hc).
      exists s'. repeat split; [now right | exact Hg | exact Hc].
Qed.

(** X12: whatever the OpenCV functions do, [applyFilters] returns only
    through the final rescale: a returned matrix has all its samples in
    [0, 255] and the last two calls made are the min-max
    normalization and the conversion to [CV_8UC1]; when an exception
    leaves [applyFilters], the conversion to [CV_8UC1] was not
    called. *)
Theorem applyFilters_exits (cv : OpenCV) (frame : image)
    (p : ProcessingParams) :
  (forall out, snd (applyFilters cv frame p) = Ok out ->
     Forall (fun v => 0 <= v <= 255) (data out) /\
     exists before,
       fst (applyFilters cv frame p) =
       before ++ [call_normalize 0 255;
                  call_convertTo CV_8UC1 f64_one (f64_of_int 0)]) /\
  (forall e, snd (applyFilters cv frame p) = Throw e ->
     ~ In (call_convertTo CV_8UC1 f64_one (f64_of_int 0))
          (fst (applyFilters cv frame p))).
Proof.
  rewrite applyFilters_as_stages.
  destruct (empty frame).
  { split; [intros out H; discriminate H | intros e _ []]. }
  change stage_order
    with ([Normalize; Gain; Denoise; Blur; Sharpen; Contrast] ++ [FinalRescale]).
  rewrite run_stages_app.
  pose proof (@run_stages_calls_in cv (gate p) p
                [Normalize; Gain; Denoise; Blur; Sharpen; Contrast]
                (clone frame)) as Hin.
  destruct (run_stages cv (gate p) p
              [Normalize; Gain; Denoise; Blur; Sharpen; Contrast]
              (clone frame)) as [l [m|e|u]].
  - rewrite cv_bind_Ok, run_final_rescale by reflexivity. cbn [fst snd].
    split; [|intros e H; discriminate H].
    intros out H. injection H as <-.
    split; [apply convertTo_8U_range | now exists l].
  - unfold cv_bind; cbn [fst snd].
    split; [intros out H; discriminate H|].
    intros e' _ Hc. destruct (Hin _ Hc) as (s & Hs & _ & Hcall).
    cbn [In] in Hs.
    repeat (destruct Hs as [<-|Hs];
            [cbn [stage_calls In] in Hcall;
             repeat (destruct Hcall as [Hcall|Hcall]; [discriminate Hcall|]);
             exact Hcall|]).
    exact Hs.
  - unfold cv_bind; cbn [fst snd].
    split; [intros out H; discriminate H | intros e H; discriminate H].
Qed.

(** An instance: the stand-in with every stage on, and with a kernel
    of extent 2. *)
Lemma applyFilters_exits_witness :
  (exists out, snd (applyFilters cv_stub image_2x2 params_all_on) = Ok out /\
     Forall (fun v => 0 <= v <= 255) (data out)) /\
  (exists e, snd (applyFilters cv_stub image_2x2 params_even_blur) = Throw e /\
     ~ In (call_convertTo CV_8UC1 f64_one (f64_of_int 0))
          (fst (applyFilters cv_stub image_2x2 params_even_blur))).
Proof.
  split.
  - eexists. split; [vm_compute; reflexivity|].
    apply (proj1 (applyFilters_exits cv_stub image_2x2 params_all_on)).
    vm_compute. reflexivity.
  - eexists. split; [vm_compute; reflexivity|].
    eapply (proj2 (applyFilters_exits cv_stub image_2x2 params_even_blur)).
    vm_compute. reflexivity.
Defined.

(** ** The rescale applied twice *)

Lemma fold_left_min_in (l : list Z) (a : Z) : In (fold_left Z.min l a) (a :: l).
Proof.
  revert a. induction l as [|y l IH]; intro a; cbn [fold_left].
  - now left.
  - destruct (IH (Z.min a y)) as [H|H].
    + rewrite <- H. destruct (Z.min_spec a y) as [[_ ->]|[_ ->]];
        [now left | right; now left].
    + right. now right.
Qed.

Lemma fold_left_max_in (l : list Z) (a : Z) : In (fold_left Z.max l a) (a :: l).
Proof.
  revert a. induction l as [|y l IH]; intro a; cbn [fold_left].
  - now left.
  - destruct (IH (Z.max a y)) as [H|H].
    + rewrite <- H. destruct (Z.max_spec a y) as [[_ ->]|[_ ->]];
        [right; now left | now left].
    + right. now right.
Qed.

Lemma list_min_in (l : list Z) : l <> [] -> In (list_min l) l.
Proof. destruct l as [|a l]; [congruence|]. intros _. apply fold_left_min_in. Qed.

Lemma list_max_in (l : list Z) : l <> [] -> In (list_max l) l.
Proof. destruct l as [|a l]; [congruence|]. intros _. apply fold_left_max_in. Qed.

Lemma list_min_is (l : list Z) (a : Z) :
  In a l -> (forall x, In x l -> a <= x) -> list_min l = a.
Proof.
  intros Ha Hall. apply Z.le_antisymm; [now apply list_min_le|].
  apply Hall, list_min_in. intros ->. destruct Ha.
Qed.

Lemma list_max_is (l : list Z) (a : Z) :
  In a l -> (forall x, In x l -> x <= a) -> list_max l = a.
Proof.
  intros Ha Hall. apply Z.le_antisymm; [|now apply list_max_ge].
  apply Hall, list_max_in. intros ->. destruct Ha.
Qed.

Lemma round_div_zero (d : Z) : 0 < d -> round_div 0 d = 0.
Proof. intro Hd. rewrite <- (Z.mul_0_l d). now apply round_div_exact. Qed.

(** What the min-max rescale to [0, 255] returns: a frame whose samples
    are not all equal comes out with least sample 0 and greatest 255,
    any other comes out with every sample 0. *)
Lemma cv_normalize_minmax_range (m : image) :
  data m <> [] ->
  (list_min (data m) < list_max (data m) ->
   list_min (data (cv_normalize_minmax m 0 255)) = 0 /\
   list_max (data (cv_normalize_minmax m 0 255)) = 255) /\
  (list_max (data m) <= list_min (data m) ->
   data (cv_normalize_minmax m 0 255) = map (fun _ => 0) (data m)).
Proof.
  intro Hne. unfold cv_normalize_minmax. cbn [data].
  change (Z.max 0 255 - Z.min 0 255) with 255. change (Z.min 0 255) with 0.
  set (smin := list_min (data m)). set (smax := list_max (data m)).
  split.
  - intro Hlt.
    assert (E : (0 <? smax - smin) = true) by (apply Z.ltb_lt; lia).
    rewrite E. split.
    + apply list_min_is.
      * apply in_map_iff. exists smin. split; [|now apply list_min_in].
        rewrite Z.sub_diag, Z.mul_0_l, round_div_zero by lia. reflexivity.
      * intros x Hx. apply in_map_iff in Hx. destruct Hx as (y & <- & _).
        apply saturate_u8_range.
    + apply list_max_is.
      * apply in_map_iff. exists smax. split; [|now apply list_max_in].
        rewrite (Z.mul_comm _ 255), round_div_exact by lia. reflexivity.
      * intros x Hx. apply in_map_iff in Hx. destruct Hx as (y & <- & _).
        apply saturate_u8_range.
  - intro Hle.
    assert (E : (0 <? smax - smin) = false) by (apply Z.ltb_ge; lia).
    now rewrite E.
Qed.

Lemma list_min_max_const (l : list Z) (c : Z) :
  l <> [] ->
  list_min (map (fun _ => c) l) = c /\ list_max (map (fun _ => c) l) = c.
Proof.
  intro Hne.
  assert (Hin : In c (map (fun _ => c) l)).
  { destruct l as [|x l]; [congruence|]. now left. }
  assert (Hall : forall x, In x (map (fun _ => c) l) -> x = c).
  { intros x Hx. apply in_map_iff in Hx. now destruct Hx as (y & <- & _). }
  split; [apply list_min_is | apply list_max_is]; try exact Hin;
    intros x Hx; rewrite (Hall x Hx); lia.
Qed.

Lemma cv_normalize_minmax_twice (m : image) :
  cv_normalize_minmax (cv_normalize_minmax m 0 255) 0 255 =
  cv_normalize_minmax m 0 255.
Proof.
  destruct (data m) as [|x l] eqn:Ed.
  { unfold cv_normalize_minmax at 1 2 3. cbn [data rows cols].
    now rewrite Ed. }
  assert (Hne : data m <> []) by (rewrite Ed; discriminate).
  destruct (@cv_normalize_minmax_range m Hne) as [Hlt Hle].
  destruct (Z_lt_le_dec (list_min (data m)) (list_max (data m))) as [H|H].
  - destruct (Hlt H) as [Hmin Hmax].
    now apply cv_normalize_minmax_stretched.
  - specialize (Hle H).
    destruct (@list_min_max_const (data m) 0 Hne) as [Hmin Hmax].
    rewrite <- Hle in Hmin, Hmax.
    remember (cv_normalize_minmax m 0 255) as n eqn:En.
    destruct n as [r c d]. cbn [data] in Hle, Hmin, Hmax.
    unfold cv_normalize_minmax. cbn [rows cols data]. rewrite Hmin, Hmax.
    change (0 <? 0 - 0) with false. cbv iota. f_equal.
    rewrite Hle, map_map. reflexivity.
Qed.

Lemma convertTo_8U_normalized (m : image) :
  convertTo_8U (cv_normalize_minmax m 0 255) = cv_normalize_minmax m 0 255.
Proof.
  unfold convertTo_8U, cv_normalize_minmax. cbn [rows cols data].
  f_equal. rewrite map_map. apply map_ext. intro x.
  destruct (0 <? _); apply saturate_u8_id, saturate_u8_range.
Qed.

Lemma applyFilters_rescale_only (cv : OpenCV) (frame : image)
    (p : ProcessingParams) :
  float_ne (gain p) f32_one = false ->
  denoise p = false ->
  gaussianBlur p = false ->
  sharpen p = false ->
  float_ne (contrastAlpha p) f32_one = false ->
  contrastBeta p = 0 ->
  empty frame = false ->
  snd (applyFilters cv frame p) = Ok (cv_normalize_minmax frame 0 255).
Proof.
  intros Hg Hd Hb Hs Ha Hc Hne.
  unfold applyFilters. rewrite Hne, Hg, Hd, Hb, Hs, Ha, Hc.
  cbn [andb orb negb Z.eqb].
  assert (Hcl : clone frame = frame) by now destruct frame.
  rewrite Hcl. unfold normalizeIntensity, cv_do.
  destruct (normalize p).
  - rewrite cv_bind_Ok, !cv_bind_ret_l, cv_bind_Ok by reflexivity.
    cbn [snd]. rewrite cv_bind_Ok. cbn [snd cv_ret].
    now rewrite cv_normalize_minmax_twice, convertTo_8U_normalized.
  - rewrite !cv_bind_ret_l, cv_bind_Ok. cbn [snd].
    rewrite cv_bind_Ok. cbn [snd cv_ret].
    now rewrite convertTo_8U_normalized.
Qed.

Lemma empty_normalize (m : image) :
  empty (cv_normalize_minmax m 0 255) = empty m.
Proof.
  unfold empty, cv_normalize_minmax, zlength. cbn [rows cols data].
  now rewrite length_map.
Qed.

(** X13: with gain, denoising, blur, sharpening and contrast off,
    [applyFilters] is idempotent on every frame that is not empty: it
    returns the min-max rescale of the frame, and returns that again
    when applied to it.  The result has least sample 0 and greatest 255
    when the samples of the frame are not all equal, and is all 0 when
    they are. *)
Theorem applyFilters_rescale_idempotent (cv : OpenCV) (frame : image)
    (p : ProcessingParams) :
  float_ne (gain p) f32_one = false ->
  denoise p = false ->
  gaussianBlur p = false ->
  sharpen p = false ->
  float_ne (contrastAlpha p) f32_one = false ->
  contrastBeta p = 0 ->
  empty frame = false ->
  exists out,
    snd (applyFilters cv frame p) = Ok out /\
    snd (applyFilters cv out p) = Ok out /\
    (list_min (data frame) < list_max (data frame) ->
     list_min (data out) = 0 /\ list_max (data out) = 255) /\
    (list_max (data frame) <= list_min (data frame) ->
     Forall (fun v => v = 0) (data out)).
Proof.
  intros Hg Hd Hb Hs Ha Hc Hne.
  exists (cv_normalize_minmax frame 0 255).
  assert (Hdata : data frame <> []).
  { intro E. unfold empty, zlength in Hne. rewrite E in Hne. discriminate Hne. }
  destruct (@cv_normalize_minmax_range frame Hdata) as [Hlt Hle].
  split; [now apply applyFilters_rescale_only|]. split.
  - rewrite applyFilters_rescale_only; try assumption.
    + now rewrite cv_normalize_minmax_twice.
    + now rewrite empty_normalize.
  - split; [exact Hlt|]. intro H. rewrite (Hle H).
    apply Forall_forall. intros v Hv. apply in_map_iff in Hv.
    now destruct Hv as (y & <- & _).
Qed.

(** An instance: the stand-in, a frame with samples 10, 20, 30 and 40,
    every stage off. *)
Lemma applyFilters_rescale_idempotent_witness :
  let frame := mkMat 2 2 [10; 20; 30; 40] in
  float_ne (gain params_all_off) f32_one = false /\
  empty frame = false /\
  exists out,
    snd (applyFilters cv_stub frame params_all_off) = Ok out /\
    snd (applyFilters cv_stub out params_all_off) = Ok out /\
    data out = [0; 85; 170; 255].
Proof.
  intro frame.
  assert (H0 : float_ne (gain params_all_off) f32_one = false) by reflexivity.
  assert (H1 : empty frame = false) by reflexivity.
  split; [exact H0|]. split; [exact H1|].
  destruct (@applyFilters_rescale_idempotent cv_stub frame params_all_off
              H0 eq_refl eq_refl eq_refl eq_refl eq_refl H1)
    as (out & E1 & E2 & _).
  exists out. split; [exact E1|]. split; [exact E2|].
  assert (E : snd (applyFilters cv_stub frame params_all_off)
              = Ok (mkMat 2 2 [0; 85; 170; 255])) by (vm_compute; reflexivity).
  rewrite E in E1. injection E1 as <-. reflexivity.
Defined.

(** X14: [applyFilters] does not look at [enableAiPreprocessing], nor
    at [blurKernelSize] when [gaussianBlur] is off, nor at
    [sharpenAmount] when [sharpen] is off: two configurations that
    differ in nothing else make the same calls and end alike. *)
Theorem applyFilters_inert_options (cv : OpenCV) (frame : image)
    (p p' : ProcessingParams) :
  normalize p' = normalize p ->
  denoise p' = denoise p ->
  gain p' = gain p ->
  gaussianBlur p' = gaussianBlur p ->
  sharpen p' = sharpen p ->
  contrastAlpha p' = contrastAlpha p ->
  contrastBeta p' = contrastBeta p ->
  (gaussianBlur p = true -> blurKernelSize p' = blurKernelSize p) ->
  (sharpen p = true -> sharpenAmount p' = sharpenAmount p) ->
  applyFilters cv frame p' = applyFilters cv frame p.
Proof.
  intros Hn Hd Hg Hb Hs Ha Hc Hk Hm.
  unfold applyFilters. rewrite Hn, Hd, Hg, Hb, Hs, Ha, Hc.
  destruct (empty frame); [reflexivity|].
  do 3 (apply cv_bind_ext; intro).
  assert (E1 : forall m : image,
    (if gaussianBlur p && (0 <? blurKernelSize p')
     then cv_do (call_GaussianBlur (blurKernelSize p', blurKernelSize p')
                   (f64_of_int 0))
                (GaussianBlur cv m (blurKernelSize p', blurKernelSize p')
                   (f64_of_int 0))
     else cv_ret m) =
    (if gaussianBlur p && (0 <? blurKernelSize p)
     then cv_do (call_GaussianBlur (blurKernelSize p, blurKernelSize p)
                   (f64_of_int 0))
                (GaussianBlur cv m (blurKernelSize p, blurKernelSize p)
                   (f64_of_int 0))
     else cv_ret m)).
  { intro m. destruct (gaussianBlur p); [now rewrite Hk | reflexivity]. }
  rewrite E1. apply cv_bind_ext; intro.
  assert (E2 : forall m : image,
    (if sharpen p then applySharpen cv m (sharpenAmount p') else cv_ret m) =
    (if sharpen p then applySharpen cv m (sharpenAmount p) else cv_ret m)).
  { intro m. destruct (sharpen p); [now rewrite Hm | reflexivity]. }
  rewrite E2. reflexivity.
Qed.

(** An instance: the default parameters with the AI flag set, a kernel
    of extent 4 and another sharpening amount. *)
Lemma applyFilters_inert_options_witness :
  let p' := mkProcessingParams true true f32_one false 4 false
              (f32_of_int 9) f32_one 0 true in
  p' <> default_params /\
  applyFilters cv_stub image_2x2 p' = applyFilters cv_stub image_2x2 default_params.
Proof.
  intro p'. split; [discriminate|].
  apply applyFilters_inert_options; try reflexivity; discriminate.
Defined.

(* ================================================================== *)
(** * Part V: the JNI layer                                            *)
(* ================================================================== *)

(** [applyFilters] returns under the contract when the blur, if
    entered, has an odd kernel. *)
Lemma applyFilters_returns (cv : OpenCV) (frame : image)
    (p : ProcessingParams) :
  OpenCV_contract cv ->
  empty frame = false ->
  blur_kernel_odd p ->
  exists out,
    snd (applyFilters cv frame p) = Ok out /\
    rows out = rows frame /\ cols out = cols frame /\
    Forall (fun v => 0 <= v <= 255) (data out).
Proof.
  intros cv_ok Hne Hodd. rewrite applyFilters_as_stages, Hne.
  change stage_order
    with ([Normalize; Gain; Denoise; Blur; Sharpen; Contrast] ++ [FinalRescale]).
  rewrite run_stages_app.
  destruct (run_stages_ok cv_ok p (gate p)
              [Normalize; Gain; Denoise; Blur; Sharpen; Contrast] (clone frame))
    as (m & E & (Hr & Hc & _)).
  { intros _. apply blur_kernel_odd_gate, Hodd. }
  rewrite E, cv_bind_Ok, run_final_rescale by reflexivity. cbn [snd].
  eexists. split; [reflexivity|].
  cbn [convertTo_8U cv_normalize_minmax rows cols clone] in *.
  split; [exact Hr|]. split; [exact Hc|]. apply convertTo_8U_range.
Qed.

Lemma samples_initialised_from (junk : nat -> Z) (l : list byte) (k : nat) :
  map (fun ic : nat * cell =>
         match snd ic with Some b => byte_val b | None => junk (fst ic) end)
      (combine (seq k (List.length (map Some l))) (map Some l))
  = map byte_val l.
Proof.
  revert k. induction l as [|b l IH]; intro k; [reflexivity|].
  cbn [map List.length seq combine fst snd]. f_equal. apply IH.
Qed.

(** The samples of a matrix whose cells were all written are the
    values of the bytes written. *)
Lemma samples_initialised (junk : nat -> Z) (r c : Z) (l : list byte) :
  samples junk (mkMat r c (map Some l)) = mkMat r c (map byte_val l).
Proof.
  unfold samples. cbn [rows cols data]. f_equal.
  apply samples_initialised_from.
Qed.

Section Native.

Variable env : JNIEnv.
Variable cv : OpenCV.
Variable junk : nat -> Z.

(** X15: [nativeProcessFrame] lets no exception of the core out, and
    reports every error to Java.  Whatever the data, the call never
    ends in a C++ exception.  When the Java classes are found: a null
    handle makes it return 0 with [IllegalArgumentException]
    ("Invalid SDK handle") raised, before the data is looked at; with a
    live handle, every error of the decoder and every error of the
    pipeline makes it return 0 with a [RuntimeException] raised that
    carries the message of the error, and a frame that comes out of
    the pipeline is returned as a copy with no exception raised.  So
    it returns 0 exactly when it has raised a Java exception, and it
    returns unless the decoder or an OpenCV function has undefined
    behaviour. *)
Theorem nativeProcessFrame_reports (handle : Z) (data : list byte)
    (normalize denoise : bool) (gain : spec_float) :
  (forall cls, FindClass env cls = true) ->
  (forall e,
     nativeProcessFrame env cv junk handle data normalize denoise gain <>
     Throw e) /\
  (handle = 0 ->
   nativeProcessFrame env cv junk handle data normalize denoise gain =
   Ok (mkJni None (Some ("java/lang/IllegalArgumentException"%string,
                         "Invalid SDK handle"%string)))) /\
  (handle <> 0 ->
   forall e, loadFrameFromBytes (jbyteArrayToVector env data) = Throw e ->
   nativeProcessFrame env cv junk handle data normalize denoise gain =
   Ok (mkJni None (Some ("java/lang/RuntimeException"%string, what e)))) /\
  (handle <> 0 ->
   forall f e,
     loadFrameFromBytes (jbyteArrayToVector env data) = Ok f ->
     snd (applyFilters cv (samples junk (frame f))
            (jni_params normalize denoise gain)) = Throw e ->
   nativeProcessFrame env cv junk handle data normalize denoise gain =
   Ok (mkJni None (Some ("java/lang/RuntimeException"%string, what e)))) /\
  (handle <> 0 ->
   forall f m,
     loadFrameFromBytes (jbyteArrayToVector env data) = Ok f ->
     snd (applyFilters cv (samples junk (frame f))
            (jni_params normalize denoise gain)) = Ok m ->
   nativeProcessFrame env cv junk handle data normalize denoise gain =
   Ok (mkJni (Some (clone m)) None)) /\
  (forall r,
     nativeProcessFrame env cv junk handle data normalize denoise gain =
     Ok r ->
     (jreturn r = None <-> jpending r <> None)) /\
  ((forall u, loadFrameFromBytes (jbyteArrayToVector env data) <> UB u) ->
   (forall f u,
      snd (applyFilters cv (samples junk (frame f))
             (jni_params normalize denoise gain)) <> UB u) ->
   exists r,
     nativeProcessFrame env cv junk handle data normalize denoise gain =
     Ok r).
Proof.
  intro Hfind. unfold nativeProcessFrame, throw_java. rewrite !Hfind.
  destruct (Z.eqb_spec handle 0) as [Eh|Eh].
  - split; [discriminate|]. split; [reflexivity|].
    do 3 (split; [intro Hn; now contradiction Hn|]).
    split; [|intros _ _; eexists; reflexivity].
    intros r H. injection H as <-. cbn [jreturn jpending].
    split; [discriminate | reflexivity].
  - cbv zeta.
    destruct (loadFrameFromBytes (jbyteArrayToVector env data)) as [f|e|u];
      cbn [obind].
    + destruct (snd (applyFilters cv (samples junk (frame f))
                       (jni_params normalize denoise gain)))
        as [m|e|u] eqn:Ef; cbn [obind].
      * split; [discriminate|]. split; [intro Hz; now contradiction Eh|].
        split; [intros _ e He; discriminate He|].
        split; [intros _ f' e He; injection He as <-; rewrite Ef;
                intro Hc; discriminate Hc|].
        split; [intros _ f' m' He; injection He as <-; rewrite Ef;
                intro Hc; now injection Hc as <-|].
        split; [|intros _ _; eexists; reflexivity].
        intros r H. injection H as <-. cbn [jreturn jpending].
        split; [discriminate | intro Hc; now contradiction Hc].
      * split; [discriminate|]. split; [intro Hz; now contradiction Eh|].
        split; [intros _ e' He; discriminate He|].
        split; [intros _ f' e' He; injection He as <-; rewrite Ef;
                intro Hc; now injection Hc as <-|].
        split; [intros _ f' m' He; injection He as <-; rewrite Ef;
                intro Hc; discriminate Hc|].
        split; [|intros _ _; eexists; reflexivity].
        intros r H. injection H as <-. cbn [jreturn jpending].
        split; [discriminate | reflexivity].
      * split; [discriminate|]. split; [intro Hz; now contradiction Eh|].
        split; [intros _ e He; discriminate He|].
        split; [intros _ f' e He; injection He as <-; rewrite Ef;
                intro Hc; discriminate Hc|].
        split; [intros _ f' m' He; injection He as <-; rewrite Ef;
                intro Hc; discriminate Hc|].
        split; [intros r H; discriminate H|].
        intros _ Hp. exfalso. exact (Hp f u Ef).
    + split; [discriminate|]. split; [intro Hz; now contradiction Eh|].
      split; [intros _ e' He; now injection He as <-|].
      split; [intros _ f' e' He; discriminate He|].
      split; [intros _ f' m' He; discriminate He|].
      split; [|intros _ _; eexists; reflexivity].
      intros r H. injection H as <-. cbn [jreturn jpending].
      split; [discriminate | reflexivity].
    + split; [discriminate|]. split; [intro Hz; now contradiction Eh|].
      split; [intros _ e He; discriminate He|].
      split; [intros _ f' e He; discriminate He|].
      split; [intros _ f' m' He; discriminate He|].
      split; [intros r H; discriminate H|].
      intros Hd _. exfalso. exact (Hd u eq_refl).
Qed.

End Native.

(** An instance: a buffer of ten bytes through a live handle. *)
Lemma nativeProcessFrame_reports_witness :
  nativeProcessFrame env_ok cv_stub (fun _ => 0) 1 (repeat x00 10)
    true true f32_one =
  Ok (mkJni None (Some ("java/lang/RuntimeException"%string,
                        "Data too small to contain header"%string))).
Proof.
  exact (proj1 (proj2 (proj2
           (@nativeProcessFrame_reports env_ok cv_stub (fun _ => 0) 1
              (repeat x00 10) true true f32_one (fun _ => eq_refl))))
           ltac:(discriminate)
           (runtime_error "Data too small to contain header") eq_refl).
Defined.

Lemma blur_kernel_odd_jni (normalize denoise : bool) (gain : spec_float) :
  blur_kernel_odd (jni_params normalize denoise gain).
Proof. intro H. discriminate H. Qed.

(** X16: through [nativeProcessFrame] the pipeline cannot fail on a
    well-formed frame.  With a live handle, the array elements handed
    out, and data that pass the three checks of the decoder with one
    plane and one byte per sample, it returns, for every choice of
    [normalize], [denoise] and [gain] and with no exception raised, a
    matrix of [height] rows and [width] columns with samples in
    [0, 255]: the blur, the sharpening and the contrast stage are out
    of its reach. *)
Theorem nativeProcessFrame_returns (env : JNIEnv) (cv : OpenCV)
    (junk : nat -> Z) (handle : Z) (array : list byte)
    (normalize denoise : bool) (gain : spec_float) :
  OpenCV_contract cv ->
  handle <> 0 ->
  GetByteArrayElements_ok env = true ->
  32 <= zlength array ->
  isValid (parseHeader array) = true ->
  depth (parseHeader array) = 1 ->
  bytesPerVoxel (parseHeader array) = 1 ->
  32 + width (parseHeader array) * height (parseHeader array) <= zlength array ->
  (forall s, gate (jni_params normalize denoise gain) s = true ->
     s = Normalize \/ s = Gain \/ s = Denoise \/ s = FinalRescale) /\
  exists out,
    nativeProcessFrame env cv junk handle array normalize denoise gain =
      Ok (mkJni (Some out) None) /\
    rows out = height (parseHeader array) /\
    cols out = width (parseHeader array) /\
    Forall (fun v => 0 <= v <= 255) (data out).
Proof.
  intros cv_ok Hh Hel Hlen Hv Hd Hb Hsz. split.
  { intros s Hs. destruct s; try tauto; discriminate Hs. }
  assert (Hwh : 0 < width (parseHeader array) /\ 0 < height (parseHeader array)).
  { unfold isValid in Hv. rewrite !andb_true_iff, !Z.ltb_lt in Hv. tauto. }
  unfold nativeProcessFrame, jbyteArrayToVector.
  rewrite Hel. apply Z.eqb_neq in Hh. rewrite Hh. cbv zeta.
  rewrite (loadFrameFromBytes_table array). cbv zeta.
  rewrite Hv, Hd, Hb, !Z.mul_1_r. cbn [negb].
  destruct (zlength array <? 32) eqn:E0; [apply Z.ltb_lt in E0; lia|].
  destruct (zlength array <? 32 + _) eqn:E2; [apply Z.ltb_lt in E2; lia|].
  destruct (_ * _ <? _) eqn:E3; [apply Z.ltb_lt in E3; lia|].
  cbn [obind frame]. rewrite copied_cells_full, samples_initialised by assumption.
  set (img := mkMat _ _ (map byte_val _)).
  assert (Hne : empty img = false).
  { unfold empty, img, zlength. cbn [rows cols data].
    rewrite length_map, length_firstn, length_skipn.
    apply orb_false_iff. unfold zlength in Hsz.
    split; apply Z.eqb_neq; nia. }
  destruct (@applyFilters_returns cv img (jni_params normalize denoise gain)
              cv_ok Hne (@blur_kernel_odd_jni normalize denoise gain))
    as (out & E & Hr & Hc & Hrange).
  rewrite E. cbn [obind]. exists (clone out).
  split; [reflexivity|]. cbn [clone rows cols data].
  split; [exact Hr|]. split; [exact Hc | exact Hrange].
Qed.

(** An instance: the encoded 2 by 2 frame with gain 2. *)
Lemma nativeProcessFrame_returns_witness :
  exists out,
    nativeProcessFrame env_ok cv_stub (fun _ => 0) 1
      (encode header_2x2 payload_2x2) true true (f32_of_int 2) =
      Ok (mkJni (Some out) None) /\
    rows out = 2 /\ cols out = 2 /\
    Forall (fun v => 0 <= v <= 255) (data out).
Proof.
  destruct (@nativeProcessFrame_returns env_ok cv_stub (fun _ => 0) 1
              (encode header_2x2 payload_2x2) true true (f32_of_int 2)
              cv_stub_contract ltac:(discriminate) eq_refl
              ltac:(vm_compute; congruence) eq_refl eq_refl eq_refl
              ltac:(vm_compute; congruence))
    as (_ & out & E & Hr & Hc & Hrange).
  exists out. split; [exact E|]. split; [exact Hr|]. split; [exact Hc|].
  exact Hrange.
Defined.

Lemma to_jlong_spec (z : Z) :
  0 <= z < 2 ^ 64 ->
  - 2 ^ 63 <= to_jlong z < 2 ^ 63 /\
  to_jlong z mod 2 ^ 64 = z /\
  (to_jlong z < 0 <-> 2 ^ 63 <= z).
Proof.
  intro Hz. unfold to_jlong. destruct (z <? 2 ^ 63) eqn:E.
  - apply Z.ltb_lt in E. rewrite Z.mod_small by lia. lia.
  - apply Z.ltb_ge in E.
    replace (z - 2 ^ 64) with (z + (-1) * 2 ^ 64) by lia.
    rewrite Z.mod_add, Z.mod_small by lia. lia.
Qed.

Lemma loadFrameFromBytes_header (bytes : list byte) (f : UltraFrame) :
  loadFrameFromBytes bytes = Ok f -> header f = parseHeader bytes.
Proof.
  decode_cases bytes; intro H; try discriminate H. now injection H as <-.
Qed.

(** X17: [nativeGetFrameMetadata] runs the whole decoder, and on the
    data of a frame that the decoder returns it gives the frame number
    unchanged and the timestamp converted to a signed 64-bit value: the
    same bits, negative exactly when the timestamp is [2 ^ 63] or
    more. *)
Theorem nativeGetFrameMetadata_returns (env : JNIEnv) (handle : Z)
    (data : list byte) (f : UltraFrame) :
  handle <> 0 ->
  GetByteArrayElements_ok env = true ->
  NewLongArray_ok env = true ->
  loadFrameFromBytes data = Ok f ->
  exists number stamp,
    nativeGetFrameMetadata env handle data =
      Ok (mkJni (Some [number; stamp]) None) /\
    number = frameNumber (parseHeader data) /\
    0 <= number < 2 ^ 32 /\
    stamp mod 2 ^ 64 = timestamp (parseHeader data) /\
    - 2 ^ 63 <= stamp < 2 ^ 63 /\
    (stamp < 0 <-> 2 ^ 63 <= timestamp (parseHeader data)).
Proof.
  intros Hh Hel Hnew Hf.
  pose proof (loadFrameFromBytes_header data Hf) as Hhd.
  destruct (parseHeader_in_range data) as (_ & _ & _ & _ & _ & Hn & Ht & _).
  unfold nativeGetFrameMetadata, jbyteArrayToVector.
  apply Z.eqb_neq in Hh. rewrite Hh, Hel, Hf, Hnew, Hhd. cbv zeta.
  destruct (to_jlong_spec Ht) as (H1 & H2 & H3).
  eexists. eexists. split; [reflexivity|].
  assert (E : to_jlong (frameNumber (parseHeader data))
              = frameNumber (parseHeader data)).
  { unfold to_jlong.
    destruct (_ <? 2 ^ 63) eqn:E; [reflexivity | apply Z.ltb_ge in E; lia]. }
  rewrite E. repeat split; try assumption; try lia; apply H3.
Qed.

(** An instance: a 1 by 1 frame stamped [2 ^ 64 - 1]. *)
Lemma nativeGetFrameMetadata_returns_witness :
  let h := mkUltraHeader MAGIC_ID 1 1 1 1 5 (2 ^ 64 - 1) 0 0 in
  nativeGetFrameMetadata env_ok 1 (encode h [x2a]) =
  Ok (mkJni (Some [5; -1]) None).
Proof.
  intro h.
  assert (Hf : loadFrameFromBytes (encode h [x2a]) =
               Ok (mkUltraFrame h (mkMat 1 1 [Some x2a])))
    by (vm_compute; reflexivity).
  destruct (@nativeGetFrameMetadata_returns env_ok 1 (encode h [x2a]) _
              ltac:(discriminate) eq_refl eq_refl Hf)
    as (number & stamp & E & _).
  rewrite E. vm_compute in E. now injection E as <- <-.
Defined.

Lemma firstn_repeat_min {A} (x : A) (n m : nat) :
  firstn n (repeat x m) = repeat x (Nat.min n m).
Proof.
  revert m. induction n as [|n IH]; intro m; [reflexivity|].
  destruct m as [|m]; [reflexivity|]. cbn [repeat firstn Nat.min].
  f_equal. apply IH.
Qed.

Lemma le_uint_zeros (n : nat) : le_uint (repeat x00 n) = 0.
Proof.
  induction n as [|n IH]; [reflexivity|].
  cbn [repeat le_uint]. rewrite IH. reflexivity.
Qed.

Lemma read_le_zeros (m off n : nat) : read_le (repeat x00 m) off n = 0.
Proof.
  unfold read_le. rewrite skipn_repeat_sub, firstn_repeat_min.
  apply le_uint_zeros.
Qed.

(** A buffer of zero bytes is refused: as too small under 32 bytes, for
    its magic from 32 bytes on. *)
Lemma loadFrameFromBytes_zeros (n : nat) :
  loadFrameFromBytes (repeat x00 n) =
  Throw (if Z.of_nat n <? 32 then FormatError else InvalidHeaderError).
Proof.
  rewrite loadFrameFromBytes_table. cbv zeta.
  unfold zlength. rewrite repeat_length.
  destruct (Z.of_nat n <? 32); [reflexivity|].
  assert (E : isValid (parseHeader (repeat x00 n)) = false).
  { unfold isValid, parseHeader; cbn [magicId width height bytesPerVoxel].
    rewrite !read_le_zeros. reflexivity. }
  now rewrite E.
Qed.

(** X18: when the Java environment hands out no array elements,
    [jbyteArrayToVector] yields as many zero bytes, and both native
    methods refuse them with a [RuntimeException]: "Data too small to
    contain header" for an array of fewer than 32 bytes, "Invalid
    header: magic ID mismatch" for any other.  Neither returns a
    value. *)
Theorem native_without_elements (env : JNIEnv) (cv : OpenCV)
    (junk : nat -> Z) (handle : Z) (array : list byte)
    (normalize denoise : bool) (gain : spec_float) :
  GetByteArrayElements_ok env = false ->
  handle <> 0 ->
  FindClass env "java/lang/RuntimeException" = true ->
  let message :=
    if zlength array <? 32
    then "Data too small to contain header"%string
    else "Invalid header: magic ID mismatch"%string in
  nativeProcessFrame env cv junk handle array normalize denoise gain =
    Ok (mkJni None (Some ("java/lang/RuntimeException"%string, message))) /\
  nativeGetFrameMetadata env handle array =
    Ok (mkJni None (Some ("java/lang/RuntimeException"%string, message))).
Proof.
  intros Hel Hh Hfind message. subst message.
  apply Z.eqb_neq in Hh.
  unfold nativeProcessFrame, nativeGetFrameMetadata, jbyteArrayToVector,
    throw_java.
  rewrite Hel, Hh, Hfind. cbv zeta.
  rewrite loadFrameFromBytes_zeros. unfold zlength. cbn [obind].
  destruct (Z.of_nat (List.length array) <? 32); split; reflexivity.
Qed.

(** An instance: the encoded 2 by 2 frame with its elements withheld. *)
Lemma native_without_elements_witness :
  let env := mkJNIEnv (fun _ => true) false true in
  nativeGetFrameMetadata env 1 (encode header_2x2 payload_2x2) =
  Ok (mkJni None (Some ("java/lang/RuntimeException"%string,
                        "Invalid header: magic ID mismatch"%string))).
Proof.
  intro env.
  exact (proj2 (@native_without_elements env cv_stub (fun _ => 0) 1
                  (encode header_2x2 payload_2x2) true true f32_one
                  eq_refl ltac:(discriminate) eq_refl)).
Defined.

(* ================================================================== *)
(** * Part VI: the checksum of a buffer of more than 4 GiB             *)
(* ================================================================== *)

(** ** The register is additive *)

Lemma additive_0 (g : Z -> Z) : additive g -> g 0 = 0.
Proof.
  intro Hg. pose proof (Hg 0 0) as H. rewrite Z.lxor_0_r in H.
  rewrite H at 1. apply Z.lxor_nilpotent.
Qed.

Lemma lxor_swap (a b c d : Z) :
  Z.lxor (Z.lxor a b) (Z.lxor c d) = Z.lxor (Z.lxor a c) (Z.lxor b d).
Proof.
  rewrite !Z.lxor_assoc. f_equal.
  rewrite <- !Z.lxor_assoc. f_equal. apply Z.lxor_comm.
Qed.

Lemma additive_crc32_bit : additive crc32_bit.
Proof.
  intros a b. unfold crc32_bit.
  rewrite Z.lxor_spec, Z.shiftr_lxor.
  destruct (Z.testbit a 0), (Z.testbit b 0); cbn [xorb].
  - now rewrite lxor_swap, Z.lxor_nilpotent, Z.lxor_0_r.
  - rewrite !Z.lxor_assoc. f_equal. apply Z.lxor_comm.
  - now rewrite Z.lxor_assoc.
  - reflexivity.
Qed.

Lemma additive_iter (g : Z -> Z) (n : nat) :
  additive g -> additive (Nat.iter n g).
Proof.
  intros Hg a b. induction n as [|n IH]; [reflexivity|].
  rewrite !Nat.iter_succ. now rewrite IH, Hg.
Qed.

Lemma zero_byte_iter (c : Z) : zero_byte c = Nat.iter 8 crc32_bit c.
Proof.
  unfold zero_byte, crc32_byte. change (byte_val x00) with 0.
  now rewrite Z.lxor_0_r.
Qed.

Lemma additive_zero_byte : additive zero_byte.
Proof.
  intros a b. rewrite !zero_byte_iter.
  apply additive_iter, additive_crc32_bit.
Qed.

Lemma xor_if_lxor (a b : bool) (v : Z) :
  xor_if (xorb a b) v = Z.lxor (xor_if a v) (xor_if b v).
Proof.
  destruct a, b; cbn [xorb xor_if];
    now rewrite ?Z.lxor_nilpotent, ?Z.lxor_0_r, ?Z.lxor_0_l.
Qed.

Lemma additive_apply_cols (cols : list Z) (i : Z) : additive (apply_cols cols i).
Proof.
  revert i. induction cols as [|col rest IH]; intros i a b; cbn [apply_cols].
  - reflexivity.
  - now rewrite Z.lxor_spec, xor_if_lxor, IH, lxor_swap.
Qed.

Lemma additive_compose (g h : Z -> Z) :
  additive g -> additive h -> additive (fun c => g (h c)).
Proof. intros Hg Hh a b. now rewrite Hh, Hg. Qed.

(** ** An additive map is its 32 columns *)

Lemma testbit_slice (c s n j : Z) :
  0 <= s -> 0 <= n -> 0 <= j ->
  Z.testbit (slice c s n) j = Z.testbit c j && ((s <=? j) && (j <? s + n)).
Proof.
  intros Hs Hn Hj. unfold slice.
  rewrite Z.land_spec, Z.shiftl_spec, Z.testbit_ones by lia.
  f_equal.
  destruct (Z.leb_spec 0 (j - s)), (Z.ltb_spec (j - s) n),
    (Z.leb_spec s j), (Z.ltb_spec j (s + n)); cbn; try reflexivity; lia.
Qed.

Lemma testbit_xor_if_pow2 (b : bool) (s j : Z) :
  0 <= s -> Z.testbit (xor_if b (2 ^ s)) j = b && (s =? j).
Proof.
  intro Hs. destruct b; cbn [xor_if andb].
  - now apply Z.pow2_bits_eqb.
  - apply Z.bits_0.
Qed.

Lemma slice_step (c s n : Z) :
  0 <= s -> 0 <= n ->
  slice c s (n + 1) =
  Z.lxor (xor_if (Z.testbit c s) (2 ^ s)) (slice c (s + 1) n).
Proof.
  intros Hs Hn. apply Z.bits_inj'. intros j Hj.
  rewrite Z.lxor_spec, !testbit_slice, testbit_xor_if_pow2 by lia.
  destruct (Z.eqb_spec s j) as [<-|Hne].
  - destruct (Z.leb_spec s s), (Z.ltb_spec s (s + (n + 1))),
      (Z.leb_spec (s + 1) s); try lia.
    cbn. now rewrite !andb_true_r, andb_false_r, xorb_false_r.
  - rewrite andb_false_r. cbn [xorb]. f_equal.
    destruct (Z.leb_spec s j), (Z.ltb_spec j (s + (n + 1))),
      (Z.leb_spec (s + 1) j), (Z.ltb_spec j (s + 1 + n));
      cbn; try reflexivity; lia.
Qed.

Lemma slice_0 (c s : Z) : slice c s 0 = 0.
Proof.
  unfold slice. change (Z.ones 0) with 0.
  now rewrite Z.shiftl_0_l, Z.land_0_r.
Qed.

Lemma slice_full (c : Z) : 0 <= c < 2 ^ 32 -> slice c 0 32 = c.
Proof.
  intro Hc. unfold slice. rewrite Z.shiftl_0_r, Z.land_ones by lia.
  now apply Z.mod_small.
Qed.

Lemma apply_cols_slice (g : Z -> Z) (n s : nat) (c : Z) :
  additive g ->
  apply_cols (map (fun i => g (2 ^ Z.of_nat i)) (seq s n)) (Z.of_nat s) c =
  g (slice c (Z.of_nat s) (Z.of_nat n)).
Proof.
  intro Hg. revert s. induction n as [|n IH]; intro s.
  - cbn [seq map apply_cols]. change (Z.of_nat 0) with 0.
    now rewrite slice_0, additive_0.
  - cbn [seq map apply_cols].
    replace (Z.of_nat s + 1) with (Z.of_nat (S s)) by lia.
    rewrite IH.
    replace (Z.of_nat (S n)) with (Z.of_nat n + 1) by lia.
    rewrite slice_step, Hg by lia.
    replace (Z.of_nat s + 1) with (Z.of_nat (S s)) by lia.
    f_equal. destruct (Z.testbit c (Z.of_nat s)); cbn [xor_if];
      [reflexivity | now rewrite additive_0].
Qed.

Lemma apply_columns (g : Z -> Z) (c : Z) :
  additive g -> 0 <= c < 2 ^ 32 -> apply_cols (columns g) 0 c = g c.
Proof.
  intros Hg Hc. unfold columns.
  change 0 with (Z.of_nat 0) at 1.
  rewrite apply_cols_slice by assumption.
  change (Z.of_nat 0) with 0. change (Z.of_nat 32) with 32.
  now rewrite slice_full.
Qed.

(** ** Runs of zero bytes *)

Lemma fold_zero_bytes (n : nat) (s : Z) :
  fold_left crc32_byte (repeat x00 n) s = Nat.iter n zero_byte s.
Proof.
  revert s. induction n as [|n IH]; intro s; [reflexivity|].
  cbn [repeat fold_left]. rewrite IH. fold (zero_byte s).
  symmetry. apply Nat.iter_succ_r.
Qed.

Lemma zero_byte_iter_range (n : nat) (c : Z) :
  0 <= c < 2 ^ 32 -> 0 <= Nat.iter n zero_byte c < 2 ^ 32.
Proof.
  intro Hc. induction n as [|n IH]; [exact Hc|].
  rewrite Nat.iter_succ. now apply crc32_byte_range.
Qed.

(** [zero_run k] is what [2 ^ k] zero bytes do to the register. *)
Lemma zero_run_spec (k : nat) (c : Z) :
  0 <= c < 2 ^ 32 ->
  Nat.iter (2 ^ k) zero_byte c = apply_cols (zero_run k) 0 c.
Proof.
  revert c. induction k as [|k IH]; intros c Hc.
  - change (2 ^ 0)%nat with 1%nat. cbn [zero_run].
    rewrite apply_columns; [reflexivity | apply additive_zero_byte | exact Hc].
  - rewrite Nat.pow_succ_r'.
    replace (2 * 2 ^ k)%nat with (2 ^ k + 2 ^ k)%nat by lia.
    rewrite Nat.iter_add. cbn [zero_run]. cbv zeta.
    rewrite apply_columns; [| | exact Hc].
    + rewrite <- (IH c Hc). apply IH. now apply zero_byte_iter_range.
    + apply additive_compose; apply additive_apply_cols.
Qed.

Lemma crc32_zero_run (k m : nat) :
  crc32 0 (repeat x00 (2 ^ k + m)) =
  Z.lxor
    (apply_cols (zero_run k) 0 (Nat.iter m zero_byte (Z.lxor 0 0xFFFFFFFF)))
    0xFFFFFFFF.
Proof.
  unfold crc32. rewrite fold_zero_bytes, Nat.iter_add, zero_run_spec.
  - reflexivity.
  - apply zero_byte_iter_range. cbn. lia.
Qed.

Lemma skipn_28_zeros (n : nat) :
  skipn 28 (repeat x00 (n + 32)) = repeat x00 (n + 4).
Proof. rewrite skipn_repeat_sub. f_equal. lia. Qed.

(** On [2 ^ 32 + 32] zero bytes the length handed to [crc32] is 4. *)
Lemma validateCrc_zero_run (n : nat) (expectedCrc : Z) :
  Z.of_nat n = 2 ^ 32 ->
  validateCrc (repeat x00 (n + 32)) expectedCrc =
  (crc32 0 (repeat x00 4) =? expectedCrc).
Proof.
  intro Hn.
  assert (Hlen : zlength (repeat x00 (n + 32)) = 2 ^ 32 + 32).
  { unfold zlength. rewrite repeat_length, Nat2Z.inj_add, Hn. reflexivity. }
  unfold validateCrc. rewrite Hlen.
  replace (2 ^ 32 + 32 <? HEADER_SIZE) with false by reflexivity.
  cbv zeta. unfold calculateCrc32, wrap_uInt.
  replace ((2 ^ 32 + 32 - 28) mod 2 ^ 32) with 4 by reflexivity.
  change (Z.to_nat 4) with 4%nat.
  rewrite skipn_28_zeros, firstn_repeat_min.
  replace (Nat.min 4 (n + 4)) with 4%nat by lia.
  rewrite Z.mod_small by apply crc32_range. reflexivity.
Qed.

(** C6 (code defect): [validateCrc] hands the [size_t] length
    [data.size() - 28] to zlib's [crc32], whose length parameter is the
    32-bit [uInt].  On the buffer of [2 ^ 32 + 32] zero bytes it
    checksums 4 bytes instead of [2 ^ 32 + 4]: it answers true for the
    expected value [0x2144DF1C], while the CRC-32 over the bytes from
    offset 28 through the end of the buffer is [0xC622F71D], so the
    claim asks for false.  On buffers of less than [2 ^ 32 + 28] bytes
    the length is handed over unchanged. *)
Theorem validateCrc_narrows_length :
  zlength zeros_4GiB_32 = 2 ^ 32 + 32 /\
  validateCrc zeros_4GiB_32 0x2144DF1C = true /\
  crc32 0 (skipn 28 zeros_4GiB_32) = 0xC622F71D /\
  crc32 0 (skipn 28 zeros_4GiB_32) <> 0x2144DF1C.
Proof.
  unfold zeros_4GiB_32.
  assert (Hn : Z.of_nat (2 ^ 32) = 2 ^ 32)
    by (rewrite Nat2Z.inj_pow; reflexivity).
  assert (Hcrc : crc32 0 (skipn 28 (repeat x00 (2 ^ 32 + 32))) = 0xC622F71D).
  { rewrite (skipn_28_zeros (2 ^ 32)), (crc32_zero_run 32 4).
    vm_compute. reflexivity. }
  split; [|split; [|split]].
  - unfold zlength. rewrite repeat_length, Nat2Z.inj_add, Hn. reflexivity.
  - rewrite (@validateCrc_zero_run (2 ^ 32) 0x2144DF1C Hn).
    vm_compute. reflexivity.
  - exact Hcrc.
  - rewrite Hcrc. discriminate.
Qed.
